(** * Quiz application: question store, REST handlers and quiz state machine

    A shallow embedding of [src/server/server.ts] (the Express handlers over
    the PostgreSQL table [questions]; its [initializeDatabase] is also the one
    of the second server file) and of [src/App.tsx] (the React component
    [QuizGame]), with the properties of the specification stated over them.

    Modelling conventions.
    - The table [questions] is a finite map from the primary key [id] to the
      remaining columns, together with the state of the sequence that
      [SERIAL] attaches to [id].  The two timestamp columns are never read by
      a handler and are left out.
    - The sequence is an unbounded integer and the keys it gives out are
      taken to be within [INTEGER]; the database is always reachable, so a
      query raises only for a reason the statement and its parameters give (a
      text that holds the character U+0000, a parameter that is not an
      integer or not within [INTEGER], a NOT NULL or primary-key violation).
    - A text is well-formed Unicode, and a string is the sequence of bytes
      of its UTF-8 encoding, so that the character U+0000 is the byte 0.  A
      JavaScript string with an unpaired surrogate has no such encoding and
      is not modelled.
    - The handlers are served one at a time.  What two handlers do when their
      queries interleave is shown separately for Delete.
    - A request body is read at the types of the client's [Question]
      interface, each field possibly absent: [question] and [explanation] are
      a string or absent, [correctAnswer] is a number or absent, [options] is
      an array of strings or anything that is not an array.
    - A JavaScript number that holds a count or an index is an integer of
      [Z]; the percentage of the completion screen is computed on binary64
      floats, as the code computes it.
    - A handler of the component is a function of the state of the render
      that created it and of what the network returned; a click reaches a
      handler only through a button that this render shows. *)

From Stdlib Require Import ZArith QArith String List Lia Floats.
From stdpp Require Import base option gmap list sorting.

Local Open Scope string_scope.
Local Open Scope Z_scope.

(** ** The wire format shared by server and client *)

(** [interface Question] of App.tsx; also the shape of the rows that the
    handlers select ([correct_answer as "correctAnswer"]). *)
Record Question := mkQuestion {
  id : Z;
  question : string;
  options : list string;
  correctAnswer : Z;
  explanation : string
}.

(** * The server *)

Module Server.

(** ** The table *)

(** One row of [questions] without its key: the columns [question],
    [options], [correct_answer] and [explanation]. *)
Record Row := mkRow {
  col_question : string;
  col_options : list string;
  col_correct_answer : Z;
  col_explanation : string
}.

(** The table and the sequence behind [id SERIAL PRIMARY KEY]:
    [questions_id_seq] is the value the next [nextval] returns. *)
Record Table := mkTable {
  rows : gmap Z Row;
  questions_id_seq : Z
}.

(** [SELECT COUNT( * ) FROM questions], after [parseInt]. *)
Definition count (t : Table) : Z := Z.of_nat (size (rows t)).

(** [SELECT id, question, options, correct_answer as "correctAnswer",
    explanation] applied to one row. *)
Definition select_columns (k : Z) (r : Row) : Question :=
  {| id := k; question := col_question r; options := col_options r;
     correctAnswer := col_correct_answer r; explanation := col_explanation r |}.

(** A query of the pool either resolves with a value or rejects, which the
    handler's [catch] turns into a 500. *)
Inductive Query (A : Type) : Type :=
| Rejected : Query A
| Resolved (a : A) : Query A.
Arguments Rejected {A}.
Arguments Resolved {A} a.

(** ** Requests *)

(** The [:id] segment of the path reaches the query as text: the text of an
    integer [n], of any size, or another text.  The database converts it to
    [INTEGER]; the statement fails on a text that is not an integer and on an
    integer outside the range of the type (see [in_int4]). *)
Inductive IdParam : Type :=
| IdInteger (n : Z)
| IdNotInteger.

(** The [options] property of a body. *)
Inductive OptionsField : Type :=
| NotAnArray                      (* absent, null, or any value that is not an array *)
| ArrayOf (entries : list string).

(** [req.body] after [express.json()], destructured as
    [{ question, options, correctAnswer, explanation }], for bodies of the
    types that the client sends: [question] and [explanation] a string,
    [correctAnswer] a JSON number, the entries of [options] strings.  [None]
    is an absent (or null) property.  Bodies with values of other JSON types
    in these places (a [correctAnswer] that is a string, say) are not
    modelled, and nothing below is said of them. *)
Record Body := mkBody {
  body_question : option string;
  body_options : OptionsField;
  body_correctAnswer : option Q;
  body_explanation : option string
}.

(** ** Responses *)

Inductive Json : Type :=
| JsonQuestion (q : Question)
| JsonQuestions (l : list Question)
| JsonMessage (message : string)
| JsonError (error : string).

Record Response := mkResponse {
  status : Z;
  json : Json
}.

(** [res.json(x)] answers with status 200. *)
Definition res_json (j : Json) : Response := mkResponse 200 j.

Definition internal_server_error : Response :=
  mkResponse 500 (JsonError "Internal server error").

Definition question_not_found : Response :=
  mkResponse 404 (JsonError "Question not found").

(** ** JavaScript tests of the validation *)

(** [!question] on a string or an absent property: the empty string is
    falsy. *)
Definition not_question (q : option string) : bool :=
  match q with
  | None => true
  | Some s => if String.eqb s "" then true else false
  end.

(** [!options || !Array.isArray(options) || options.length !== 4]: every
    array is truthy, and a value that is not an array fails one of the first
    two tests. *)
Definition not_four_options (o : OptionsField) : bool :=
  match o with
  | NotAnArray => true
  | ArrayOf entries => negb (Nat.eqb (length entries) 4)
  end.

(** [correctAnswer < 0]: an absent property converts to NaN (null to 0), and
    the comparison is false. *)
Definition lt_zero (c : option Q) : bool :=
  match c with
  | None => false
  | Some q => if Qlt_le_dec q 0 then true else false
  end.

(** [correctAnswer > 3], likewise. *)
Definition gt_three (c : option Q) : bool :=
  match c with
  | None => false
  | Some q => if Qlt_le_dec 3 q then true else false
  end.

(** Both tests of the handlers' validation let the body through. *)
Definition validation_passes (b : Body) : bool :=
  negb (not_question (body_question b) || not_four_options (body_options b))
  && negb (lt_zero (body_correctAnswer b) || gt_three (body_correctAnswer b)).

(** ** Parameters of a statement *)

(** A number bound to an [INTEGER] column or compared with one is sent as its
    decimal text; the database accepts the text of an integer only.  An
    absent value is sent as NULL. *)
Definition bind_integer (c : option Q) : Query (option Z) :=
  match c with
  | None => Resolved None
  | Some q =>
      if Z.eqb (Qnum q mod Z.pos (Qden q)) 0
      then Resolved (Some (Qnum q / Z.pos (Qden q)))
      else Rejected
  end.

(** The range of [INTEGER]. *)
Definition in_int4 (n : Z) : bool := (-2147483648 <=? n) && (n <=? 2147483647).

(** The text holds the character U+0000. *)
Fixpoint has_nul (s : string) : bool :=
  match s with
  | EmptyString => false
  | String c s => if Ascii.eqb c Ascii.zero then true else has_nul s
  end.

(** The database takes no text with U+0000 in it: a statement with such a
    parameter for [question], for an entry of [options] or for [explanation]
    fails. *)
Definition refused_text (q : option string) (o : list string) (e : option string) : bool :=
  match q with Some q => has_nul q | None => false end
  || existsb has_nul o
  || match e with Some e => has_nul e | None => false end.

(** The columns are all [NOT NULL]. *)
Definition not_null_row (q : option string) (o : list string) (c : option Z)
    (e : option string) : option Row :=
  match q, c, e with
  | Some q, Some c, Some e => Some (mkRow q o c e)
  | _, _, _ => None
  end.

(** ** Statements *)

(** [INSERT INTO questions (question, options, correct_answer, explanation)
    VALUES ($1, $2, $3, $4) RETURNING ...].  A parameter that the database
    does not take makes the statement fail before it runs.  Otherwise the key
    comes from the sequence, which advances whether or not the row is
    accepted. *)
Definition insert_question (q : option string) (o : list string)
    (c : option Q) (e : option string) (t : Table) : Table * Query Question :=
  match bind_integer c with
  | Rejected => (t, Rejected)
  | Resolved c =>
      if refused_text q o e then (t, Rejected) else
      let k := questions_id_seq t in
      let t1 := mkTable (rows t) (k + 1) in
      match not_null_row q o c e with
      | None => (t1, Rejected)
      | Some r =>
          match rows t !! k with
          | Some _ => (t1, Rejected)
          | None => (mkTable (<[k := r]> (rows t)) (k + 1), Resolved (select_columns k r))
          end
      end
  end.

(** [UPDATE questions SET question = $1, options = $2, correct_answer = $3,
    explanation = $4, updated_at = CURRENT_TIMESTAMP WHERE id = $5
    RETURNING ...]: the rows returned, at most one.  The keys of the rows are
    within [INTEGER], so an id that a row has is one the database takes; an
    id that no row has is looked for in vain, unless it is outside
    [INTEGER], where the statement fails. *)
Definition update_question (q : option string) (o : list string)
    (c : option Q) (e : option string) (i : IdParam) (t : Table)
    : Table * Query (list Question) :=
  match bind_integer c, i with
  | Rejected, _ | _, IdNotInteger => (t, Rejected)
  | Resolved c, IdInteger k =>
      if refused_text q o e then (t, Rejected) else
      match rows t !! k with
      | None => if in_int4 k then (t, Resolved []) else (t, Rejected)
      | Some _ =>
          match not_null_row q o c e with
          | None => (t, Rejected)
          | Some r =>
              (mkTable (<[k := r]> (rows t)) (questions_id_seq t),
               Resolved [select_columns k r])
          end
      end
  end.

(** [DELETE FROM questions WHERE id = $1 RETURNING *]: the number of rows
    returned. *)
Definition delete_question (i : IdParam) (t : Table) : Table * Query nat :=
  match i with
  | IdNotInteger => (t, Rejected)
  | IdInteger k =>
      match rows t !! k with
      | None => if in_int4 k then (t, Resolved 0%nat) else (t, Rejected)
      | Some _ => (mkTable (delete k (rows t)) (questions_id_seq t), Resolved 1%nat)
      end
  end.

(** [SELECT ... FROM questions WHERE id = $1]. *)
Definition select_question (i : IdParam) (t : Table) : Query (list Question) :=
  match i with
  | IdNotInteger => Rejected
  | IdInteger k =>
      match rows t !! k with
      | None => if in_int4 k then Resolved [] else Rejected
      | Some r => Resolved [select_columns k r]
      end
  end.

(** [SELECT ... FROM questions ORDER BY id]. *)
Definition by_id (a b : Question) : Prop := id a <= id b.

#[global] Instance by_id_dec : RelDecision by_id.
Proof. intros a b. unfold by_id. apply Z_le_dec. Defined.

Definition select_questions (t : Table) : list Question :=
  merge_sort by_id
    ((fun kr => select_columns (fst kr) (snd kr)) <$> map_to_list (rows t)).

(** ** Handlers *)

(** The entries of the array that passed [Array.isArray]. *)
Definition entries_of (o : OptionsField) : list string :=
  match o with
  | NotAnArray => []
  | ArrayOf entries => entries
  end.

(** [app.get('/api/questions')]. *)
Definition getQuestions (t : Table) : Response :=
  res_json (JsonQuestions (select_questions t)).

(** [app.get('/api/questions/:id')]. *)
Definition getQuestionById (i : IdParam) (t : Table) : Response :=
  match select_question i t with
  | Rejected => internal_server_error
  | Resolved [] => question_not_found
  | Resolved (row :: _) => res_json (JsonQuestion row)
  end.

(** [app.post('/api/questions')]. *)
Definition createQuestion (b : Body) (t : Table) : Table * Response :=
  if not_question (body_question b) || not_four_options (body_options b) then
    (t, mkResponse 400 (JsonError "Question must have 4 options"))
  else if lt_zero (body_correctAnswer b) || gt_three (body_correctAnswer b) then
    (t, mkResponse 400 (JsonError "Correct answer must be between 0 and 3"))
  else
    match insert_question (body_question b) (entries_of (body_options b))
            (body_correctAnswer b) (body_explanation b) t with
    | (t', Rejected) => (t', internal_server_error)
    | (t', Resolved row) => (t', mkResponse 201 (JsonQuestion row))
    end.

(** [app.put('/api/questions/:id')]. *)
Definition updateQuestion (i : IdParam) (b : Body) (t : Table) : Table * Response :=
  if not_question (body_question b) || not_four_options (body_options b) then
    (t, mkResponse 400 (JsonError "Question must have 4 options"))
  else if lt_zero (body_correctAnswer b) || gt_three (body_correctAnswer b) then
    (t, mkResponse 400 (JsonError "Correct answer must be between 0 and 3"))
  else
    match update_question (body_question b) (entries_of (body_options b))
            (body_correctAnswer b) (body_explanation b) i t with
    | (t', Rejected) => (t', internal_server_error)
    | (t', Resolved []) => (t', question_not_found)
    | (t', Resolved (row :: _)) => (t', res_json (JsonQuestion row))
    end.

(** [app.delete('/api/questions/:id')]. *)
Definition deleteQuestion (i : IdParam) (t : Table) : Table * Response :=
  let questionCount := count t in
  if questionCount <=? 1 then
    (t, mkResponse 400 (JsonError "Cannot delete the last question"))
  else
    match delete_question i t with
    | (t', Rejected) => (t', internal_server_error)
    | (t', Resolved O) => (t', question_not_found)
    | (t', Resolved (S _)) => (t', res_json (JsonMessage "Question deleted successfully"))
    end.

(** ** Start-up *)

(** The literal [sampleQuestions] of [initializeDatabase]. *)
Definition sampleQuestions : list Row :=
  [ mkRow "What is the capital of France?"
      ["London"; "Berlin"; "Paris"; "Madrid"] 2
      "Paris has been the capital of France since the 12th century.";
    mkRow "Which planet is known as the Red Planet?"
      ["Venus"; "Mars"; "Jupiter"; "Saturn"] 1
      "Mars appears red due to iron oxide (rust) on its surface.";
    mkRow "What is the largest mammal in the world?"
      ["African Elephant"; "Blue Whale"; "Giraffe"; "Polar Bear"] 1
      "The Blue Whale can grow up to 100 feet long and weigh 200 tons." ].

(** The loop [for (const question of sampleQuestions) await client.query(
    'INSERT ...')]: a rejected insert leaves the loop, and the rows inserted
    before it stay. *)
Fixpoint insert_samples (samples : list Row) (t : Table) : Table * Query unit :=
  match samples with
  | [] => (t, Resolved tt)
  | r :: samples =>
      match insert_question (Some (col_question r)) (col_options r)
              (Some (inject_Z (col_correct_answer r)))
              (Some (col_explanation r)) t with
      | (t', Rejected) => (t', Rejected)
      | (t', Resolved _) => insert_samples samples t'
      end
  end.

(** [initializeDatabase], on a database whose table [questions] exists
    ([CREATE TABLE IF NOT EXISTS] gives the empty table otherwise). *)
Definition initializeDatabase (t : Table) : Table * Query unit :=
  let questionCount := count t in
  if questionCount =? 0 then insert_samples sampleQuestions t
  else (t, Resolved tt).

(** The table of a database in which [questions] was just created. *)
Definition created_table : Table := mkTable ∅ 1.

(** ** Routing *)

Inductive Request : Type :=
| GET_questions
| GET_question (i : IdParam)
| POST_question (b : Body)
| PUT_question (i : IdParam) (b : Body)
| DELETE_question (i : IdParam).

Definition serve (r : Request) (t : Table) : Table * Response :=
  match r with
  | GET_questions => (t, getQuestions t)
  | GET_question i => (t, getQuestionById i t)
  | POST_question b => createQuestion b t
  | PUT_question i b => updateQuestion i b t
  | DELETE_question i => deleteQuestion i t
  end.

(** [response.ok] of the fetch API. *)
Definition ok (r : Response) : bool := (200 <=? status r) && (status r <=? 299).

(** A body that carries a question as the data model describes it: a prompt
    that is not empty, four options, an answer among 0..3 (as a number equal
    to that integer) and an explanation.  The fields are those of [r]. *)
Definition valid_payload (b : Body) (r : Row) : Prop :=
  body_question b = Some (col_question r) /\ col_question r <> "" /\
  body_options b = ArrayOf (col_options r) /\ length (col_options r) = 4%nat /\
  (exists n : Q, body_correctAnswer b = Some n /\ (n == inject_Z (col_correct_answer r))%Q) /\
  0 <= col_correct_answer r <= 3 /\
  body_explanation b = Some (col_explanation r).

(** The texts of the row hold no U+0000, so that the database takes them. *)
Definition texts_accepted (r : Row) : Prop :=
  refused_text (Some (col_question r)) (col_options r) (Some (col_explanation r)) = false.

(** The keys in use are behind the sequence: what [SERIAL] maintains as long
    as no statement writes [id] itself. *)
Definition sequence_ahead (t : Table) : Prop :=
  forall k, is_Some (rows t !! k) -> k < questions_id_seq t.

End Server.

(** * The client *)

Module Client.

Import Server.

(** ** JavaScript numbers of the completion screen *)

(** The binary64 value of an integer. *)
Definition number (z : Z) : float :=
  SF2Prim (binary_normalize prec emax z 0 false).

(** What [Math.round] returns: an integer, or its argument when that is NaN
    or infinite. *)
Inductive Rounded : Type :=
| RoundedTo (z : Z)
| RoundedNaN
| RoundedInfinity (negative : bool).

(** [Math.round]: the integer closest to the argument, a tie going up. *)
Definition Math_round (x : float) : Rounded :=
  match Prim2SF x with
  | S754_zero _ => RoundedTo 0
  | S754_infinity s => RoundedInfinity s
  | S754_nan => RoundedNaN
  | S754_finite s m e =>
      let n := if s then Z.neg m else Z.pos m in
      if 0 <=? e then RoundedTo (n * 2 ^ e)
      else RoundedTo ((2 * n + 2 ^ (- e)) / 2 ^ (- e + 1))
  end.

(** ** State of [QuizGame] *)

(** The ten [useState] cells. *)
Record State := mkState {
  quizQuestions : list Question;
  currentQuestion : Z;
  selectedAnswer : option Z;
  score : Z;
  showResult : bool;
  quizCompleted : bool;
  editMode : bool;
  editingQuestion : option Question;
  loading : bool;
  error : option string
}.

(** The initial values given to [useState]. *)
Definition initialState : State :=
  mkState [] 0 None 0 false false false None true None.

Definition setQuizQuestions v (st : State) : State :=
  mkState v (currentQuestion st) (selectedAnswer st) (score st) (showResult st)
    (quizCompleted st) (editMode st) (editingQuestion st) (loading st) (error st).
Definition setCurrentQuestion v (st : State) : State :=
  mkState (quizQuestions st) v (selectedAnswer st) (score st) (showResult st)
    (quizCompleted st) (editMode st) (editingQuestion st) (loading st) (error st).
Definition setSelectedAnswer v (st : State) : State :=
  mkState (quizQuestions st) (currentQuestion st) v (score st) (showResult st)
    (quizCompleted st) (editMode st) (editingQuestion st) (loading st) (error st).
Definition setScore v (st : State) : State :=
  mkState (quizQuestions st) (currentQuestion st) (selectedAnswer st) v (showResult st)
    (quizCompleted st) (editMode st) (editingQuestion st) (loading st) (error st).
Definition setShowResult v (st : State) : State :=
  mkState (quizQuestions st) (currentQuestion st) (selectedAnswer st) (score st) v
    (quizCompleted st) (editMode st) (editingQuestion st) (loading st) (error st).
Definition setQuizCompleted v (st : State) : State :=
  mkState (quizQuestions st) (currentQuestion st) (selectedAnswer st) (score st)
    (showResult st) v (editMode st) (editingQuestion st) (loading st) (error st).
Definition setEditMode v (st : State) : State :=
  mkState (quizQuestions st) (currentQuestion st) (selectedAnswer st) (score st)
    (showResult st) (quizCompleted st) v (editingQuestion st) (loading st) (error st).
Definition setEditingQuestion v (st : State) : State :=
  mkState (quizQuestions st) (currentQuestion st) (selectedAnswer st) (score st)
    (showResult st) (quizCompleted st) (editMode st) v (loading st) (error st).
Definition setLoading v (st : State) : State :=
  mkState (quizQuestions st) (currentQuestion st) (selectedAnswer st) (score st)
    (showResult st) (quizCompleted st) (editMode st) (editingQuestion st) v (error st).
Definition setError v (st : State) : State :=
  mkState (quizQuestions st) (currentQuestion st) (selectedAnswer st) (score st)
    (showResult st) (quizCompleted st) (editMode st) (editingQuestion st) (loading st) v.

(** [quizQuestions.length]. *)
Definition len (l : list Question) : Z := Z.of_nat (length l).

(** [quizQuestions[i]]: [None] is [undefined]. *)
Definition at_index (l : list Question) (i : Z) : option Question :=
  if i <? 0 then None else l !! Z.to_nat i.

(** [Math.max(...quizQuestions.map(q => q.id))]: [None] is the [-Infinity]
    of an empty list. *)
Fixpoint Math_max (l : list Question) : option Z :=
  match l with
  | [] => None
  | q :: l =>
      match Math_max l with
      | None => Some (id q)
      | Some m => Some (Z.max (id q) m)
      end
  end.

(** [editingQuestion.id > Math.max(...quizQuestions.map(q => q.id))]. *)
Definition exceeds_max (draft : Question) (l : list Question) : bool :=
  match Math_max l with
  | None => true
  | Some m => m <? id draft
  end.

(** ** What the network returns *)

(** The outcome of [await fetch(...)] as the handlers read it: the promise
    rejects with a message, or resolves with a response of which [ok] and, for
    the list, the decoded body are used. *)
Inductive Reply (A : Type) : Type :=
| Failed (message : string)
| Answered (ok : bool) (body : A).
Arguments Failed {A} message.
Arguments Answered {A} ok body.

(** ** Handlers *)

(** [fetchQuestions], given the reply to [GET /questions]. *)
Definition fetchQuestions (reply : Reply (list Question)) (st : State) : State :=
  let st := setError None (setLoading true st) in
  let st :=
    match reply with
    | Answered true questions => setQuizQuestions questions st
    | Answered false _ => setError (Some "Failed to fetch questions") st
    | Failed message => setError (Some message) st
    end in
  setLoading false st.

Definition handleAnswerSelect (optionIndex : Z) (st : State) : State :=
  setSelectedAnswer (Some optionIndex) st.

(** [handleSubmit].  Reading [correctAnswer] of an [undefined] question
    throws before any setter is called, which leaves the state as it was. *)
Definition handleSubmit (st : State) : State :=
  match selectedAnswer st with
  | None => st
  | Some selected =>
      match at_index (quizQuestions st) (currentQuestion st) with
      | None => st
      | Some q =>
          let st' :=
            if selected =? correctAnswer q then setScore (score st + 1) st else st in
          setShowResult true st'
      end
  end.

Definition handleNext (st : State) : State :=
  if currentQuestion st <? len (quizQuestions st) - 1 then
    setShowResult false
      (setSelectedAnswer None (setCurrentQuestion (currentQuestion st + 1) st))
  else
    setQuizCompleted true st.

Definition handleRestart (st : State) : State :=
  setQuizCompleted false
    (setShowResult false
       (setScore 0 (setSelectedAnswer None (setCurrentQuestion 0 st)))).

Definition handleEditQuestion (q : Question) (st : State) : State :=
  setEditMode true (setEditingQuestion (Some q) st).

Definition handleCancelEdit (st : State) : State :=
  setError None (setEditingQuestion None (setEditMode false st)).

(** [Math.max(0, ...quizQuestions.map(q => q.id)) + 1]. *)
Definition next_draft_id (l : list Question) : Z :=
  match Math_max l with
  | None => 0
  | Some m => Z.max 0 m
  end + 1.

Definition handleAddQuestion (st : State) : State :=
  let newQuestion :=
    {| id := next_draft_id (quizQuestions st);
       question := "New Question";
       options := ["Option 1"; "Option 2"; "Option 3"; "Option 4"];
       correctAnswer := 0;
       explanation := "Explanation for the new question" |} in
  setEditMode true (setEditingQuestion (Some newQuestion) st).

(** The body that [handleSaveQuestion] sends. *)
Definition save_body (draft : Question) : Body :=
  {| body_question := Some (question draft);
     body_options := ArrayOf (options draft);
     body_correctAnswer := Some (inject_Z (correctAnswer draft));
     body_explanation := Some (explanation draft) |}.

(** The request that [handleSaveQuestion] issues: [url] and [method] are
    chosen by the same comparison. *)
Definition save_request (st : State) : option Request :=
  match editingQuestion st with
  | None => None
  | Some draft =>
      Some (if exceeds_max draft (quizQuestions st)
            then POST_question (save_body draft)
            else PUT_question (IdInteger (id draft)) (save_body draft))
  end.

(** [handleSaveQuestion], given the reply to the request and the reply to the
    [GET /questions] that follows a success. *)
Definition handleSaveQuestion (reply : Reply unit)
    (refetch : Reply (list Question)) (st : State) : State :=
  match editingQuestion st with
  | None => st
  | Some _ =>
      let st := setError None st in
      match reply with
      | Answered true _ =>
          setEditingQuestion None (setEditMode false (fetchQuestions refetch st))
      | Answered false _ => setError (Some "Failed to save question") st
      | Failed message => setError (Some message) st
      end
  end.

(** [handleDeleteQuestion].  The test after the re-fetch reads
    [currentQuestion] and [quizQuestions] of the render that created the
    handler, that is, of the state before the request. *)
Definition handleDeleteQuestion (reply : Reply unit)
    (refetch : Reply (list Question)) (st : State) : State :=
  if len (quizQuestions st) <=? 1 then st
  else
    let st1 := setError None st in
    match reply with
    | Answered true _ =>
        let st2 := fetchQuestions refetch st1 in
        let st3 :=
          if len (quizQuestions st) - 1 <=? currentQuestion st then
            setShowResult false (setSelectedAnswer None (setCurrentQuestion 0 st2))
          else st2 in
        setEditingQuestion None (setEditMode false st3)
    | Answered false _ => setError (Some "Failed to delete question") st1
    | Failed message => setError (Some message) st1
    end.

(** ** What is on screen *)

(** Truth value of [error], a string or [null]: the empty string is falsy. *)
Definition truthy (e : option string) : bool :=
  match e with
  | None => false
  | Some s => if String.eqb s "" then false else true
  end.

(** The branch of the component's [return]. *)
Inductive Screen : Type :=
| LoadingScreen
| ErrorScreen
| EditForm (draft : Question)
| CompletionScreen
| QuizScreen (q : Question)
| RenderThrows.     (* [question.question] of an [undefined] question *)

Definition render (st : State) : Screen :=
  if loading st then LoadingScreen
  else if truthy (error st) && (len (quizQuestions st) =? 0) then ErrorScreen
  else
    match editMode st, editingQuestion st with
    | true, Some draft => EditForm draft
    | _, _ =>
        if quizCompleted st then CompletionScreen
        else
          match at_index (quizQuestions st) (currentQuestion st) with
          | Some q => QuizScreen q
          | None => RenderThrows
          end
    end.

(** [Math.round((score / quizQuestions.length) * 100)] as a function of the
    score and of the number of questions. *)
Definition displayed (s n : Z) : Rounded :=
  Math_round ((number s / number n) * number 100)%float.

(** The percentage of the completion screen. *)
Definition percentage (st : State) : Rounded :=
  displayed (score st) (len (quizQuestions st)).

(** The clicks of a quiz run. *)
Inductive Event : Type :=
| Select (optionIndex : Z)
| Submit
| Next
| Restart.

(** A click reaches its handler only when its button is rendered and
    enabled: an option button per entry of [question.options], disabled once
    the result shows; the submit button while no result shows and an answer
    is selected; the next button once the result shows; the restart button on
    the completion screen. *)
Definition step (e : Event) (st : State) : option State :=
  match render st, e with
  | QuizScreen q, Select i =>
      if negb (showResult st) && (0 <=? i) && (i <? Z.of_nat (length (options q)))
      then Some (handleAnswerSelect i st) else None
  | QuizScreen _, Submit =>
      if negb (showResult st) && bool_decide (is_Some (selectedAnswer st))
      then Some (handleSubmit st) else None
  | QuizScreen _, Next =>
      if showResult st then Some (handleNext st) else None
  | CompletionScreen, Restart => Some (handleRestart st)
  | _, _ => None
  end.

Fixpoint run (events : list Event) (st : State) : option State :=
  match events with
  | [] => Some st
  | e :: events =>
      match step e st with
      | None => None
      | Some st' => run events st'
      end
  end.

(** The state once the initial [fetchQuestions] has delivered [questions]. *)
Definition ready (questions : list Question) : State :=
  fetchQuestions (Answered true questions) initialState.

(** A state in which the quiz is being played: loaded, no error, not
    editing. *)
Definition playing (qs : list Question) (i : Z) (sel : option Z) (s : Z)
    (shown completed : bool) : State :=
  mkState qs i sel s shown completed false None false None.

(** Answering one question after the other: for each selection a click on
    that option, on the submit button and on the next button. *)
Definition quiz_run (selections : list Z) : list Event :=
  flat_map (fun a => [Select a; Submit; Next]) selections.

(** The selection is one of the option buttons of the question. *)
Definition selectable (q : Question) (a : Z) : Prop :=
  0 <= a < Z.of_nat (length (options q)).

(** What holds between the cells while the quiz is played: the score is at
    most the number of questions whose result has been shown, and that number
    is at most the number of questions. *)
Definition score_invariant (st : State) : Prop :=
  let shown := if showResult st then 1 else 0 in
  0 <= score st <= currentQuestion st + shown
  /\ 0 <= currentQuestion st
  /\ currentQuestion st + shown <= len (quizQuestions st).

(** What one click does to the score. *)
Definition score_effect (e : Event) (before after : Z) : Prop :=
  match e with
  | Select _ | Next => after = before
  | Submit => after = before \/ after = before + 1
  | Restart => after = 0
  end.

(** ** The client against the server *)

(** The reply that the client reads off a response of the server. *)
Definition reply_of (r : Response) : Reply unit := Answered (ok r) tt.

Definition questions_of (r : Response) : Reply (list Question) :=
  Answered (ok r) match json r with JsonQuestions l => l | _ => [] end.

(** A click on "Save Question" with the server in state [t]: the request is
    served, and after a success so is the [GET /questions] of the
    re-fetch. *)
Definition save_on (t : Table) (st : State) : Table * State :=
  match save_request st with
  | None => (t, st)
  | Some request =>
      let (t', response) := serve request t in
      (t', handleSaveQuestion (reply_of response)
             (questions_of (snd (serve GET_questions t'))) st)
  end.

End Client.

(** * The specification's formulas *)

Module Spec.

(** "The number of positions at which the selection equals that question's
    correctAnswer". *)
Fixpoint matches (questions : list Question) (selections : list Z) : Z :=
  match questions, selections with
  | q :: questions, a :: selections =>
      (if a =? correctAnswer q then 1 else 0) + matches questions selections
  | _, _ => 0
  end.

(** "round(score/N x 100)" over the rationals, a half going up: the floor of
    [100 * score / N + 1/2]. *)
Definition exact_percentage (score N : Z) : Z := (200 * score + N) / (2 * N).

(** The check that the percentage on screen is the exact one for every
    number of questions from 1 to [bound] and every score up to that
    number. *)
Definition agrees_up_to (bound : nat) : bool :=
  forallb (fun n =>
    forallb (fun s =>
      match Client.displayed (Z.of_nat s) (Z.of_nat n) with
      | Client.RoundedTo p => p =? exact_percentage (Z.of_nat s) (Z.of_nat n)
      | _ => false
      end) (seq 0 (S n))) (seq 1 bound).

End Spec.

(** * Concrete situations *)

Module Scenario.

Import Server Client.

(** The table after the first start on a database without the table. *)
Definition seeded : Table := fst (initializeDatabase created_table).

(** What [GET /api/questions] then lists. *)
Definition seeded_questions : list Question := select_questions seeded.

(** The seeded table after questions 2 and 3 were deleted. *)
Definition last_row : Table :=
  fst (deleteQuestion (IdInteger 3) (fst (deleteQuestion (IdInteger 2) seeded))).

(** The seeded table after question 3 was deleted. *)
Definition last_two_rows : Table :=
  fst (deleteQuestion (IdInteger 3) seeded).

(** A body with a prompt, four options and an explanation, and no
    [correctAnswer]. *)
Definition body_without_answer : Body :=
  {| body_question := Some "Which ocean is the largest?";
     body_options := ArrayOf ["Atlantic"; "Pacific"; "Indian"; "Arctic"];
     body_correctAnswer := None;
     body_explanation := Some "The Pacific covers about a third of the surface." |}.

(** The same body with [correctAnswer: 1.5]. *)
Definition body_with_fraction : Body :=
  {| body_question := body_question body_without_answer;
     body_options := body_options body_without_answer;
     body_correctAnswer := Some (3 # 2)%Q;
     body_explanation := body_explanation body_without_answer |}.

(** The same body with [correctAnswer: 1]. *)
Definition body_with_answer : Body :=
  {| body_question := body_question body_without_answer;
     body_options := body_options body_without_answer;
     body_correctAnswer := Some (inject_Z 1);
     body_explanation := body_explanation body_without_answer |}.

Definition row_with_answer : Row :=
  mkRow "Which ocean is the largest?" ["Atlantic"; "Pacific"; "Indian"; "Arctic"] 1
    "The Pacific covers about a third of the surface.".

(** The text "Q" followed by the character U+0000 (in JSON, "Q\u0000"). *)
Definition text_with_nul : string := String.append "Q" (String Ascii.zero EmptyString).

(** That body with [text_with_nul] as question, and the row it describes. *)
Definition body_with_nul : Body :=
  {| body_question := Some text_with_nul;
     body_options := body_options body_without_answer;
     body_correctAnswer := Some (inject_Z 1);
     body_explanation := body_explanation body_without_answer |}.

Definition row_with_nul : Row :=
  mkRow text_with_nul ["Atlantic"; "Pacific"; "Indian"; "Arctic"] 1
    "The Pacific covers about a third of the surface.".

(** Forty questions: the seeded three and thirty-seven created through
    [POST /api/questions], as [GET /api/questions] lists them. *)
Definition forty_questions : list Question :=
  select_questions
    (Nat.iter 37 (fun t => fst (createQuestion body_with_answer t)) seeded).

(** Selections for them: the right answer to the first twenty-three (2 for
    the first, 1 for all others), a wrong one (3) to the last seventeen. *)
Definition twenty_three_right : list Z := 2 :: repeat 1 22 ++ repeat 3 17.

(** A player who has answered the first two seeded questions and is at the
    third, and then clicks "+ Add New Question". *)
Definition at_third_question : option State :=
  run (quiz_run [2; 1]) (ready seeded_questions).

Definition adding_at_third_question : option State :=
  handleAddQuestion <$> at_third_question.

(** Meanwhile another client has deleted questions 2 and 3, so the server is
    at [last_row] when the player clicks "Save Question". *)
Definition saved_after_foreign_deletes : option State :=
  (fun st => snd (save_on last_row st)) <$> adding_at_third_question.

(** The draft that "+ Add New Question" opens on the seeded questions. *)
Definition fourth_draft : Question :=
  mkQuestion 4 "New Question" ["Option 1"; "Option 2"; "Option 3"; "Option 4"] 0
    "Explanation for the new question".

End Scenario.

(** * More of the server: sequences of requests *)

Module Requests.

Import Server.

(** The requests of a list served one at a time: each handler runs to its
    response before the next one starts.  Handlers that overlap are not runs
    of [serve_all]; [overlapping_deletes] below is such a run. *)
Fixpoint serve_all (requests : list Request) (t : Table) : Table :=
  match requests with
  | [] => t
  | r :: requests => serve_all requests (fst (serve r t))
  end.

(** [app.delete('/api/questions/:id')] awaits twice, the count and then the
    DELETE, and other handlers can run between the two.  This is the handler
    from its first [await] on: [questionCount] is what the count returned,
    and [t] is the table that the DELETE finds. *)
Definition delete_after_count (questionCount : Z) (i : IdParam) (t : Table) : Table * Response :=
  if questionCount <=? 1 then
    (t, mkResponse 400 (JsonError "Cannot delete the last question"))
  else
    match delete_question i t with
    | (t', Rejected) => (t', internal_server_error)
    | (t', Resolved O) => (t', question_not_found)
    | (t', Resolved (S _)) => (t', res_json (JsonMessage "Question deleted successfully"))
    end.

(** Two Delete requests that overlap: both handlers have their count from
    [t] before either DELETE runs. *)
Definition overlapping_deletes (i j : IdParam) (t : Table) : Table * (Response * Response) :=
  let count_i := count t in
  let count_j := count t in
  let (t_i, res_i) := delete_after_count count_i i t in
  let (t_j, res_j) := delete_after_count count_j j t_i in
  (t_j, (res_i, res_j)).

(** The table once [startServer] has run [initializeDatabase] on [t] and the
    requests were served. *)
Definition after_start (requests : list Request) (t : Table) : Table :=
  serve_all requests (fst (initializeDatabase t)).

(** A row as the data model wants it: a prompt that is not empty, four
    options, a correct answer that is an index into them. *)
Definition row_ok (r : Row) : Prop :=
  col_question r <> "" /\ length (col_options r) = 4%nat /\ 0 <= col_correct_answer r <= 3.

Definition rows_ok (t : Table) : Prop :=
  forall k r, rows t !! k = Some r -> row_ok r.

(** The statuses that the five handlers write. *)
Definition known_status (s : Z) : Prop :=
  s = 200 \/ s = 201 \/ s = 400 \/ s = 404 \/ s = 500.

End Requests.

(** * More of the client: the edit form *)

Module Editing.

Import Server Client.

(** The draft with one field replaced: the object spread
    [{ ...editingQuestion, field: value }]. *)
Definition with_question (value : string) (d : Question) : Question :=
  mkQuestion (id d) value (options d) (correctAnswer d) (explanation d).
Definition with_explanation (value : string) (d : Question) : Question :=
  mkQuestion (id d) (question d) (options d) (correctAnswer d) value.
Definition with_options (value : list string) (d : Question) : Question :=
  mkQuestion (id d) (question d) value (correctAnswer d) (explanation d).
Definition with_correctAnswer (value : Z) (d : Question) : Question :=
  mkQuestion (id d) (question d) (options d) value (explanation d).

Definition handleQuestionChange (value : string) (st : State) : State :=
  match editingQuestion st with
  | None => st
  | Some d => setEditingQuestion (Some (with_question value d)) st
  end.

Definition handleExplanationChange (value : string) (st : State) : State :=
  match editingQuestion st with
  | None => st
  | Some d => setEditingQuestion (Some (with_explanation value d)) st
  end.

(** [handleOptionChange]: [newOptions[index] = value] on a copy of the
    options.  [None] stands for an index past the end, where JavaScript would
    extend the array and leave holes, which a list of strings does not hold;
    the form has one input per entry and passes the position of that entry. *)
Definition handleOptionChange (index : nat) (value : string) (st : State) : option State :=
  match editingQuestion st with
  | None => Some st
  | Some d =>
      if decide (index < length (options d))%nat
      then Some (setEditingQuestion (Some (with_options (<[index := value]> (options d)) d)) st)
      else None
  end.

Definition handleCorrectAnswerChange (index : Z) (st : State) : State :=
  match editingQuestion st with
  | None => st
  | Some d => setEditingQuestion (Some (with_correctAnswer index d)) st
  end.

(** [editingQuestion.id <= Math.max(...quizQuestions.map(q => q.id))], the
    test under which the form shows "Delete Question". *)
Definition delete_offered (draft : Question) (l : list Question) : bool :=
  match Math_max l with
  | None => false
  | Some m => id draft <=? m
  end.

(** What the user does to the fields of the form. *)
Inductive Edit : Type :=
| TypeQuestion (value : string)
| TypeExplanation (value : string)
| TypeOption (index : nat) (value : string)
| PickCorrectAnswer (index : nat).

(** An edit reaches its handler through the form: the two text areas, and
    for each entry of [editingQuestion.options] a text input and a radio
    button that pass the position of the entry. *)
Definition edit_step (e : Edit) (st : State) : option State :=
  match render st with
  | EditForm draft =>
      match e with
      | TypeQuestion value => Some (handleQuestionChange value st)
      | TypeExplanation value => Some (handleExplanationChange value st)
      | TypeOption index value =>
          if decide (index < length (options draft))%nat
          then handleOptionChange index value st else None
      | PickCorrectAnswer index =>
          if decide (index < length (options draft))%nat
          then Some (handleCorrectAnswerChange (Z.of_nat index) st) else None
      end
  | _ => None
  end.

Fixpoint edit_all (edits : list Edit) (st : State) : option State :=
  match edits with
  | [] => Some st
  | e :: edits =>
      match edit_step e st with
      | None => None
      | Some st' => edit_all edits st'
      end
  end.

(** The request of [handleDeleteQuestion questionId]: none when at most one
    question is loaded (the alert), otherwise DELETE on that id. *)
Definition delete_request (questionId : Z) (st : State) : option Request :=
  if len (quizQuestions st) <=? 1 then None
  else Some (DELETE_question (IdInteger questionId)).

(** A click on "Delete Question" with the server in state [t]. *)
Definition delete_on (t : Table) (questionId : Z) (st : State) : Table * State :=
  match delete_request questionId st with
  | None => (t, st)
  | Some request =>
      let (t', response) := serve request t in
      (t', handleDeleteQuestion (reply_of response)
             (questions_of (snd (serve GET_questions t'))) st)
  end.

(** The client holds the list that the server would send now. *)
Definition in_sync (t : Table) (st : State) : Prop :=
  quizQuestions st = select_questions t.

(** The current index is a position of the loaded list. *)
Definition index_valid (st : State) : Prop :=
  0 <= currentQuestion st < len (quizQuestions st).

(** The cells that the quiz, as opposed to the form, reads and writes. *)
Definition play_cells (st : State) : list Question * Z * option Z * Z * bool * bool :=
  (quizQuestions st, currentQuestion st, selectedAnswer st, score st,
   showResult st, quizCompleted st).

(** A draft that the server's validation lets through but for its prompt:
    four options and a correct answer among their positions. *)
Definition draft_ok (d : Question) : Prop :=
  length (options d) = 4%nat /\ 0 <= correctAnswer d <= 3.

End Editing.

(** * More concrete situations *)

Module Cases.

Import Server Client Editing.

(** The first of the seeded questions, as the list has it. *)
Definition first_seeded : Question :=
  mkQuestion 1 "What is the capital of France?" ["London"; "Berlin"; "Paris"; "Madrid"] 2
    "Paris has been the capital of France since the 12th century.".

(** The quiz on the seeded questions, with the server at [seeded]. *)
Definition playing_seeded : State := ready Scenario.seeded_questions.

(** The same player at the third question. *)
Definition at_third : State := playing Scenario.seeded_questions 2 None 2 false false.

(** The player with the right option of the first question selected, and the
    state after the click on submit. *)
Definition selected_first : State :=
  playing Scenario.seeded_questions 0 (Some 2) 0 false false.
Definition submitted_first : State :=
  playing Scenario.seeded_questions 0 (Some 2) 1 true false.

End Cases.

(** * Properties of the server *)

Module ServerProps.

Import Server.

(** ** Validation *)

Lemma bind_integer_inject (c : Z) : bind_integer (Some (inject_Z c)) = Resolved (Some c).
Proof.
  unfold bind_integer, inject_Z; simpl.
  rewrite Z.mod_1_r, Z.div_1_r. reflexivity.
Qed.

Lemma lt_zero_inject (c : Z) : lt_zero (Some (inject_Z c)) = (c <? 0).
Proof.
  unfold lt_zero. destruct (Qlt_le_dec (inject_Z c) 0) as [H | H].
  - change 0%Q with (inject_Z 0) in H. rewrite <- Zlt_Qlt in H. symmetry. apply Z.ltb_lt, H.
  - change 0%Q with (inject_Z 0) in H. rewrite <- Zle_Qle in H. symmetry. apply Z.ltb_ge, H.
Qed.

Lemma gt_three_inject (c : Z) : gt_three (Some (inject_Z c)) = (3 <? c).
Proof.
  unfold gt_three. destruct (Qlt_le_dec 3 (inject_Z c)) as [H | H].
  - change 3%Q with (inject_Z 3) in H. rewrite <- Zlt_Qlt in H. symmetry. apply Z.ltb_lt, H.
  - change 3%Q with (inject_Z 3) in H. rewrite <- Zle_Qle in H. symmetry. apply Z.ltb_ge, H.
Qed.

Lemma not_question_nonempty (q : string) : q <> "" -> not_question (Some q) = false.
Proof.
  intros Hq. unfold not_question. destruct (String.eqb_spec q ""); congruence.
Qed.

(** The body that the client sends for a draft passes the validation when
    the prompt is not empty, there are four options and the answer is one of
    0, 1, 2, 3. *)
Lemma save_body_passes (d : Question) :
  question d <> "" -> length (options d) = 4%nat -> 0 <= correctAnswer d <= 3 ->
  validation_passes (Client.save_body d) = true.
Proof.
  intros Hq Ho Hc. unfold validation_passes, Client.save_body.
  cbn [body_question body_options body_correctAnswer not_four_options].
  rewrite not_question_nonempty, Ho, lt_zero_inject, gt_three_inject by assumption.
  destruct (Z.ltb_spec (correctAnswer d) 0), (Z.ltb_spec 3 (correctAnswer d)); simpl; lia || reflexivity.
Qed.

(** Whatever [createQuestion] answers, a status other than 201 leaves the
    rows as they were. *)
Lemma createQuestion_rows b t :
  status (snd (createQuestion b t)) = 201 \/ rows (fst (createQuestion b t)) = rows t.
Proof.
  unfold createQuestion, insert_question.
  destruct (_ || _); [right; reflexivity |].
  destruct (_ || _); [right; reflexivity |].
  destruct (bind_integer _) as [| c]; [right; reflexivity |].
  destruct (refused_text _ _ _); [right; reflexivity |].
  destruct (not_null_row _ _ _ _); [| right; reflexivity].
  destruct (rows t !! _); [right; reflexivity | left; reflexivity].
Qed.

(** Likewise for [updateQuestion] and 200. *)
Lemma updateQuestion_rows i b t :
  status (snd (updateQuestion i b t)) = 200 \/ fst (updateQuestion i b t) = t.
Proof.
  unfold updateQuestion, update_question.
  destruct (_ || _); [right; reflexivity |].
  destruct (_ || _); [right; reflexivity |].
  destruct (bind_integer _) as [| c], i as [k |]; try (right; reflexivity).
  destruct (refused_text _ _ _); [right; reflexivity |].
  destruct (rows t !! k); [| destruct (in_int4 k); right; reflexivity].
  destruct (not_null_row _ _ _ _); [left | right]; reflexivity.
Qed.

(** The two tests of the validation answer 400 and leave the table alone. *)
Lemma createQuestion_rejects b t :
  validation_passes b = false ->
  status (snd (createQuestion b t)) = 400 /\ fst (createQuestion b t) = t.
Proof.
  unfold validation_passes, createQuestion. intros H.
  destruct (_ || _); [split; reflexivity |].
  destruct (_ || _); [split; reflexivity | discriminate].
Qed.

Lemma updateQuestion_rejects i b t :
  validation_passes b = false ->
  status (snd (updateQuestion i b t)) = 400 /\ fst (updateQuestion i b t) = t.
Proof.
  unfold validation_passes, updateQuestion. intros H.
  destruct (_ || _); [split; reflexivity |].
  destruct (_ || _); [split; reflexivity | discriminate].
Qed.

(** Conversely 400 is answered by the validation only. *)
Lemma createQuestion_400 b t :
  status (snd (createQuestion b t)) = 400 -> validation_passes b = false.
Proof.
  unfold validation_passes, createQuestion.
  destruct (_ || _); [reflexivity |].
  destruct (_ || _); [reflexivity |].
  destruct (insert_question _ _ _ _ _) as [t' [| row]]; simpl; discriminate.
Qed.

(** Both handlers answer a body that does not pass with 400 and leave the
    table as it was. *)
Lemma validation_error_leaves_table i b t :
  validation_passes b = false ->
  status (snd (createQuestion b t)) = 400 /\ fst (createQuestion b t) = t
  /\ status (snd (updateQuestion i b t)) = 400 /\ fst (updateQuestion i b t) = t.
Proof.
  intros H. destruct (createQuestion_rejects b t H), (updateQuestion_rejects i b t H).
  repeat split; assumption.
Qed.

(** Options that are not an array of four entries do not pass. *)
Lemma not_four_options_rejected b :
  not_four_options (body_options b) = true -> validation_passes b = false.
Proof.
  unfold validation_passes. intros ->. rewrite orb_true_r. reflexivity.
Qed.

(** A number below 0 or above 3 does not pass. *)
Lemma out_of_range_rejected b (q : Q) :
  body_correctAnswer b = Some q -> (q < 0 \/ 3 < q)%Q -> validation_passes b = false.
Proof.
  unfold validation_passes. intros -> Hq.
  assert (lt_zero (Some q) || gt_three (Some q) = true) as ->.
  { unfold lt_zero, gt_three.
    destruct (Qlt_le_dec q 0) as [| H0]; [reflexivity |].
    destruct (Qlt_le_dec 3 q) as [| H3]; [reflexivity |].
    destruct Hq as [Hq | Hq]; [apply Qlt_not_le in Hq | apply Qlt_not_le in Hq]; contradiction. }
  apply andb_false_r.
Qed.

(** ** Well-formed payloads *)

Lemma bind_integer_Qeq (n : Q) (c : Z) :
  (n == inject_Z c)%Q -> bind_integer (Some n) = Resolved (Some c).
Proof.
  unfold Qeq, bind_integer; simpl. intros H. rewrite Z.mul_1_r in H. rewrite H.
  rewrite Z.mod_mul, Z.div_mul by discriminate. reflexivity.
Qed.

Lemma lt_zero_Qeq (n : Q) (c : Z) :
  (n == inject_Z c)%Q -> lt_zero (Some n) = (c <? 0).
Proof.
  intros H. rewrite <- lt_zero_inject. unfold lt_zero.
  destruct (Qlt_le_dec n 0) as [H1 | H1], (Qlt_le_dec (inject_Z c) 0) as [H2 | H2];
    try reflexivity; rewrite H in H1; exfalso; eapply Qlt_not_le; eassumption.
Qed.

Lemma gt_three_Qeq (n : Q) (c : Z) :
  (n == inject_Z c)%Q -> gt_three (Some n) = (3 <? c).
Proof.
  intros H. rewrite <- gt_three_inject. unfold gt_three.
  destruct (Qlt_le_dec 3 n) as [H1 | H1], (Qlt_le_dec 3 (inject_Z c)) as [H2 | H2];
    try reflexivity; rewrite H in H1; exfalso; eapply Qlt_not_le; eassumption.
Qed.

Lemma valid_payload_passes b r :
  valid_payload b r ->
  not_question (body_question b) || not_four_options (body_options b) = false
  /\ lt_zero (body_correctAnswer b) || gt_three (body_correctAnswer b) = false
  /\ bind_integer (body_correctAnswer b) = Resolved (Some (col_correct_answer r)).
Proof.
  intros (Hq & Hq' & Ho & Ho' & (n & Hn & Hn') & Hc & He).
  rewrite Hq, Ho, Hn. cbn [not_four_options].
  rewrite not_question_nonempty, Ho' by assumption.
  rewrite (lt_zero_Qeq _ _ Hn'), (gt_three_Qeq _ _ Hn'), (bind_integer_Qeq _ _ Hn').
  repeat split; try reflexivity.
  destruct (Z.ltb_spec (col_correct_answer r) 0), (Z.ltb_spec 3 (col_correct_answer r));
    simpl; lia || reflexivity.
Qed.

(** ** The sequence stays ahead of the keys *)

Lemma sequence_ahead_fresh t : sequence_ahead t -> rows t !! questions_id_seq t = None.
Proof.
  intros H. destruct (rows t !! questions_id_seq t) eqn:E; [| reflexivity].
  specialize (H (questions_id_seq t)). rewrite E in H.
  assert (questions_id_seq t < questions_id_seq t) by (apply H; eauto). lia.
Qed.

Lemma sequence_ahead_created : sequence_ahead created_table.
Proof. intros k [r Hr]. simpl in Hr. rewrite lookup_empty in Hr. discriminate. Qed.

Lemma sequence_ahead_insert q o c e t :
  sequence_ahead t -> sequence_ahead (fst (insert_question q o c e t)).
Proof.
  intros H. unfold insert_question.
  destruct (bind_integer c) as [| c']; [exact H |].
  assert (sequence_ahead {| rows := rows t; questions_id_seq := questions_id_seq t + 1 |}) as H1.
  { intros k Hk. simpl in *. specialize (H k Hk). lia. }
  destruct (refused_text q o e); [exact H |].
  destruct (not_null_row q o c' e) as [r |]; [| exact H1].
  destruct (rows t !! questions_id_seq t) eqn:E; [exact H1 |].
  intros k Hk. simpl in *. apply lookup_insert_is_Some in Hk as [<- | [_ Hk]]; [lia |].
  specialize (H k Hk). lia.
Qed.

Lemma sequence_ahead_insert_samples l t :
  sequence_ahead t -> sequence_ahead (fst (insert_samples l t)).
Proof.
  revert t. induction l as [| r l IH]; intros t H; simpl; [exact H |].
  pose proof (sequence_ahead_insert (Some (col_question r)) (col_options r)
    (Some (inject_Z (col_correct_answer r))) (Some (col_explanation r)) t H) as H1.
  destruct (insert_question _ _ _ _ t) as [t' [| row]]; simpl in *; [exact H1 | auto].
Qed.

Lemma sequence_ahead_initializeDatabase t :
  sequence_ahead t -> sequence_ahead (fst (initializeDatabase t)).
Proof.
  intros H. unfold initializeDatabase.
  destruct (count t =? 0); [apply sequence_ahead_insert_samples, H | exact H].
Qed.

(** Every request keeps the invariant. *)
Lemma sequence_ahead_serve r t :
  sequence_ahead t -> sequence_ahead (fst (serve r t)).
Proof.
  intros H. destruct r as [| i | b | i b | i]; simpl; try exact H.
  - unfold createQuestion.
    destruct (_ || _); [exact H |]. destruct (_ || _); [exact H |].
    pose proof (sequence_ahead_insert (body_question b) (entries_of (body_options b))
      (body_correctAnswer b) (body_explanation b) t H) as H1.
    destruct (insert_question _ _ _ _ t) as [t' [| row]]; exact H1.
  - destruct (updateQuestion_rows i b t) as [_ | ->]; [| exact H].
    unfold updateQuestion, update_question.
    destruct (_ || _); [exact H |]. destruct (_ || _); [exact H |].
    destruct (bind_integer _) as [| c], i as [k |]; try exact H.
    destruct (refused_text _ _ _); [exact H |].
    destruct (rows t !! k) eqn:E; [| destruct (in_int4 k); exact H].
    destruct (not_null_row _ _ _ _); [| exact H].
    intros k' Hk'. simpl in *. apply lookup_insert_is_Some in Hk' as [<- | [_ Hk']].
    + apply H. rewrite E. eauto.
    + apply H, Hk'.
  - unfold deleteQuestion, delete_question.
    destruct (count t <=? 1); [exact H |].
    destruct i as [k |]; [| exact H].
    destruct (rows t !! k) eqn:E; [| destruct (in_int4 k); exact H].
    intros k' Hk'. simpl in *. apply lookup_delete_is_Some in Hk' as [_ Hk']. apply H, Hk'.
Qed.

(** ** The list *)

#[local] Instance by_id_total : Total by_id.
Proof. intros a b. unfold by_id. lia. Qed.

(** [GET /api/questions] lists the rows in the order of their ids. *)
Lemma select_questions_sorted t : Sorted by_id (select_questions t).
Proof. apply Sorted_merge_sort, _. Qed.

(** It lists every row, and only rows of the table. *)
Lemma elem_of_select_questions t q :
  q ∈ select_questions t <-> exists r, rows t !! id q = Some r /\ q = select_columns (id q) r.
Proof.
  unfold select_questions. rewrite merge_sort_Permutation, list_elem_of_fmap. split.
  - intros ([k r] & -> & H). apply elem_of_map_to_list in H. exists r. split; [exact H | reflexivity].
  - intros (r & H & ->). exists (id q, r). split; [reflexivity |].
    apply elem_of_map_to_list. exact H.
Qed.

(** It has as many entries as the table has rows. *)
Lemma length_select_questions t : Z.of_nat (length (select_questions t)) = count t.
Proof.
  unfold select_questions, count.
  rewrite merge_sort_Permutation, length_fmap, length_map_to_list. reflexivity.
Qed.

(** ** Delete *)

(** C1. On a table of exactly one row, Delete is answered 400 whatever the id
    and the table is left as it was; on a table of at least two rows, Delete
    of an id that is present is answered 200, removes that row and no other,
    and the count goes down by exactly one. *)
Theorem delete_one_row_refused_many_rows_removed (t : Table) (i : IdParam) :
  (count t = 1 ->
     deleteQuestion i t = (t, mkResponse 400 (JsonError "Cannot delete the last question")))
  /\ (forall k, i = IdInteger k -> 2 <= count t -> is_Some (rows t !! k) ->
        status (snd (deleteQuestion i t)) = 200
        /\ count (fst (deleteQuestion i t)) = count t - 1
        /\ rows (fst (deleteQuestion i t)) = delete k (rows t)).
Proof.
  unfold deleteQuestion. split.
  - intros ->. reflexivity.
  - intros k -> Hcount [r Hr].
    destruct (Z.leb_spec (count t) 1) as [| _]; [lia |].
    unfold delete_question. rewrite Hr. simpl. repeat split.
    unfold count in *. simpl. rewrite map_size_delete_Some by eauto. lia.
Qed.

(** Both cases on concrete tables: the last row stays, and of the three
    seeded rows the second goes. *)
Example delete_on_last_row_and_on_seeded :
  count Scenario.last_row = 1
  /\ deleteQuestion (IdInteger 1) Scenario.last_row
     = (Scenario.last_row, mkResponse 400 (JsonError "Cannot delete the last question"))
  /\ count Scenario.seeded = 3
  /\ snd (deleteQuestion (IdInteger 2) Scenario.seeded)
     = mkResponse 200 (JsonMessage "Question deleted successfully")
  /\ count (fst (deleteQuestion (IdInteger 2) Scenario.seeded)) = 2
  /\ id <$> select_questions (fst (deleteQuestion (IdInteger 2) Scenario.seeded)) = [1; 3].
Proof. vm_compute. repeat split. Qed.

(** The status of Delete, case by case. *)
Lemma deleteQuestion_status (t : Table) (i : IdParam) :
  status (snd (deleteQuestion i t)) =
    if count t <=? 1 then 400
    else match i with
         | IdNotInteger => 500
         | IdInteger k =>
             match rows t !! k with
             | Some _ => 200
             | None => if in_int4 k then 404 else 500
             end
         end.
Proof.
  unfold deleteQuestion, delete_question.
  destruct (count t <=? 1); [reflexivity |].
  destruct i as [k |]; [| reflexivity].
  destruct (rows t !! k); [reflexivity |]. destruct (in_int4 k); reflexivity.
Qed.

(** C2, as the code has it.  The business-rule error 400 is answered exactly
    when the table holds at most one row, whether or not the id is present;
    404 is answered exactly when the table holds at least two rows and the id
    is an integer within the range of the INTEGER column that is not present;
    so Delete of an absent id within that range is answered 400 on a table of
    at most one row and 404 on a larger one, and in both cases the table is
    left as it was. *)
Theorem delete_status_by_count_then_presence (t : Table) (i : IdParam) :
  (status (snd (deleteQuestion i t)) = 400 <-> count t <= 1)
  /\ (status (snd (deleteQuestion i t)) = 404 <->
        2 <= count t /\ exists k, i = IdInteger k /\ in_int4 k = true /\ rows t !! k = None)
  /\ (forall k, i = IdInteger k -> in_int4 k = true -> rows t !! k = None ->
        status (snd (deleteQuestion i t)) = (if count t <=? 1 then 400 else 404)
        /\ fst (deleteQuestion i t) = t).
Proof.
  rewrite deleteQuestion_status. split; [| split].
  - split.
    + destruct (Z.leb_spec (count t) 1); [lia |].
      destruct i as [k |]; [destruct (rows t !! k); [| destruct (in_int4 k)] |]; discriminate.
    + intros H. destruct (Z.leb_spec (count t) 1); [reflexivity | lia].
  - split.
    + destruct (Z.leb_spec (count t) 1); [discriminate |].
      destruct i as [k |]; [| discriminate].
      destruct (rows t !! k) eqn:E; [discriminate |].
      destruct (in_int4 k) eqn:Ek; [| discriminate].
      intros _. split; [lia |]. exists k. auto.
    + intros (H & k & -> & Hk & ->). rewrite Hk.
      destruct (Z.leb_spec (count t) 1); [lia | reflexivity].
  - intros k -> Hin Hk. rewrite Hk, Hin. split; [reflexivity |].
    unfold deleteQuestion, delete_question. rewrite Hk, Hin.
    destruct (count t <=? 1); reflexivity.
Qed.

(** An absent id beyond the range of INTEGER, on a table of three rows: the
    DELETE statement fails and the handler answers 500; at the last id of the
    range it answers 404. *)
Example delete_absent_id_beyond_integer :
  snd (deleteQuestion (IdInteger 2147483648) Scenario.seeded) = internal_server_error
  /\ snd (deleteQuestion (IdInteger 2147483647) Scenario.seeded) = question_not_found.
Proof. vm_compute. split; reflexivity. Qed.

(** C2, as stated, fails: on the table that holds question 1 only, Delete of
    the absent id 7 would remove nothing (the table would keep its one row),
    and yet it is answered 400, not 404. *)
Lemma delete_absent_id_on_last_row_is_400 :
  count Scenario.last_row = 1
  /\ rows Scenario.last_row !! 7 = None
  /\ size (delete 7 (rows Scenario.last_row)) = 1%nat
  /\ snd (deleteQuestion (IdInteger 7) Scenario.last_row)
     = mkResponse 400 (JsonError "Cannot delete the last question").
Proof. vm_compute. repeat split. Qed.

(** ** Create and Update *)

(** C3 at the inputs where the code departs from it.  A body with four
    options and no [correctAnswer], or with [correctAnswer] 1.5, passes both
    tests of the validation; Create and Update (of a row that exists) then
    answer 500, not 400.  The rows are left as they were. *)
Theorem correctAnswer_missing_or_fractional_is_500 :
  let t := Scenario.seeded in
  let absent := Scenario.body_without_answer in
  let fraction := Scenario.body_with_fraction in
  validation_passes absent = true
  /\ validation_passes fraction = true
  /\ snd (createQuestion absent t) = internal_server_error
  /\ snd (createQuestion fraction t) = internal_server_error
  /\ snd (updateQuestion (IdInteger 1) absent t) = internal_server_error
  /\ snd (updateQuestion (IdInteger 1) fraction t) = internal_server_error
  /\ rows (fst (createQuestion absent t)) = rows t
  /\ rows (fst (createQuestion fraction t)) = rows t
  /\ rows (fst (updateQuestion (IdInteger 1) absent t)) = rows t
  /\ rows (fst (updateQuestion (IdInteger 1) fraction t)) = rows t.
Proof. vm_compute. repeat split. Qed.

(** The database takes the parameters of a valid payload whose texts hold no
    U+0000. *)
Lemma valid_payload_accepted b r :
  valid_payload b r -> texts_accepted r ->
  refused_text (body_question b) (entries_of (body_options b)) (body_explanation b) = false.
Proof.
  intros (Hq & _ & Ho & _ & _ & _ & He) H. rewrite Hq, Ho, He. exact H.
Qed.

(** C4, as the code has it.  On a table whose sequence is ahead of its keys,
    Create with a valid payload whose question, options and explanation hold
    no character U+0000 is answered 201 with the row under a key that the
    store chose and that was not in use, and Get by that key then answers 200
    with a record that has the payload's question, options, correctAnswer and
    explanation. *)
Theorem create_then_get_returns_payload (t : Table) (b : Body) (r : Row) :
  sequence_ahead t ->
  valid_payload b r ->
  texts_accepted r ->
  let k := questions_id_seq t in
  let t' := fst (createQuestion b t) in
  rows t !! k = None
  /\ snd (createQuestion b t) = mkResponse 201 (JsonQuestion (select_columns k r))
  /\ getQuestionById (IdInteger k) t' = mkResponse 200 (JsonQuestion (select_columns k r))
  /\ question (select_columns k r) = col_question r
  /\ options (select_columns k r) = col_options r
  /\ correctAnswer (select_columns k r) = col_correct_answer r
  /\ explanation (select_columns k r) = col_explanation r.
Proof.
  intros Hseq Hvalid Htexts k t'. subst k t'.
  pose proof (sequence_ahead_fresh t Hseq) as Hfresh.
  pose proof (valid_payload_accepted b r Hvalid Htexts) as Haccepted.
  destruct (valid_payload_passes b r Hvalid) as (H1 & H2 & H3).
  destruct Hvalid as (Hq & _ & Ho & _ & _ & _ & He).
  unfold createQuestion, insert_question. rewrite H1, H2, H3, Haccepted, Hq, Ho, He.
  cbn [entries_of not_null_row]. rewrite Hfresh. cbn [fst snd].
  repeat split. unfold getQuestionById, select_question. cbn [rows].
  rewrite lookup_insert_eq. reflexivity.
Qed.

Lemma create_then_get_returns_payload_witness :
  sequence_ahead Scenario.seeded
  /\ valid_payload Scenario.body_with_answer Scenario.row_with_answer
  /\ texts_accepted Scenario.row_with_answer
  /\ snd (createQuestion Scenario.body_with_answer Scenario.seeded)
     = mkResponse 201 (JsonQuestion (select_columns 4 Scenario.row_with_answer)).
Proof.
  assert (sequence_ahead Scenario.seeded) as Hseq.
  { apply sequence_ahead_initializeDatabase, sequence_ahead_created. }
  assert (valid_payload Scenario.body_with_answer Scenario.row_with_answer) as Hvalid.
  { unfold valid_payload; simpl. repeat split; try discriminate; try lia.
    exists (inject_Z 1). split; reflexivity. }
  assert (texts_accepted Scenario.row_with_answer) as Htexts by reflexivity.
  split; [exact Hseq |]. split; [exact Hvalid |]. split; [exact Htexts |].
  apply (create_then_get_returns_payload Scenario.seeded Scenario.body_with_answer
           Scenario.row_with_answer Hseq Hvalid Htexts).
Defined.

(** C4, as stated, fails: the payload with the question "Q" followed by
    U+0000, four options, correct answer 1 and an explanation is a valid
    payload (a prompt that is not empty), and on the seeded table, whose
    sequence is ahead of its keys, Create answers 500 and stores nothing: the
    database takes no text with U+0000. *)
Lemma create_with_nul_is_500 :
  valid_payload Scenario.body_with_nul Scenario.row_with_nul
  /\ sequence_ahead Scenario.seeded
  /\ createQuestion Scenario.body_with_nul Scenario.seeded
     = (Scenario.seeded, internal_server_error).
Proof.
  split; [| split].
  - unfold valid_payload; simpl. repeat split; try discriminate; try lia.
    exists (inject_Z 1). split; reflexivity.
  - apply sequence_ahead_initializeDatabase, sequence_ahead_created.
  - vm_compute. reflexivity.
Qed.

(** C5, as the code has it.  Update of an id that is present, with a valid
    payload whose question, options and explanation hold no character
    U+0000, is answered 200 with the payload's four fields under the same id;
    Get by that id then returns exactly that record; every other row, and the
    sequence, is as before. *)
Theorem update_replaces_fields_only_of_that_row (t : Table) (k : Z) (b : Body) (r : Row) :
  is_Some (rows t !! k) ->
  valid_payload b r ->
  texts_accepted r ->
  let t' := fst (updateQuestion (IdInteger k) b t) in
  snd (updateQuestion (IdInteger k) b t) = mkResponse 200 (JsonQuestion (select_columns k r))
  /\ getQuestionById (IdInteger k) t' = mkResponse 200 (JsonQuestion (select_columns k r))
  /\ id (select_columns k r) = k
  /\ rows t' !! k = Some r
  /\ (forall k', k' <> k -> rows t' !! k' = rows t !! k')
  /\ count t' = count t
  /\ questions_id_seq t' = questions_id_seq t.
Proof.
  intros [r0 Hr0] Hvalid Htexts t'. subst t'.
  pose proof (valid_payload_accepted b r Hvalid Htexts) as Haccepted.
  destruct (valid_payload_passes b r Hvalid) as (H1 & H2 & H3).
  destruct Hvalid as (Hq & _ & Ho & _ & _ & _ & He).
  unfold updateQuestion, update_question. rewrite H1, H2, H3, Haccepted, Hr0, Hq, Ho, He.
  cbn [entries_of not_null_row fst snd rows questions_id_seq].
  unfold getQuestionById, select_question, count. cbn [rows].
  rewrite lookup_insert_eq. repeat split.
  - destruct r; reflexivity.
  - intros k' Hk'. apply lookup_insert_ne. congruence.
  - rewrite map_size_insert_Some by eauto. reflexivity.
Qed.

Lemma update_replaces_fields_only_of_that_row_witness :
  is_Some (rows Scenario.seeded !! 2)
  /\ texts_accepted Scenario.row_with_answer
  /\ rows (fst (updateQuestion (IdInteger 2) Scenario.body_with_answer Scenario.seeded)) !! 2
     = Some Scenario.row_with_answer.
Proof.
  assert (is_Some (rows Scenario.seeded !! 2)) as Hk by (vm_compute; eauto).
  assert (valid_payload Scenario.body_with_answer Scenario.row_with_answer) as Hvalid.
  { unfold valid_payload; simpl. repeat split; try discriminate; try lia.
    exists (inject_Z 1). split; reflexivity. }
  assert (texts_accepted Scenario.row_with_answer) as Htexts by reflexivity.
  split; [exact Hk |]. split; [exact Htexts |].
  apply (update_replaces_fields_only_of_that_row Scenario.seeded 2
           Scenario.body_with_answer Scenario.row_with_answer Hk Hvalid Htexts).
Defined.

(** C5, as stated, fails: question 1 is in the seeded table and the payload
    with the question "Q" followed by U+0000 is a valid payload; Update of
    id 1 with it answers 500 and leaves the table as it was. *)
Lemma update_with_nul_is_500 :
  is_Some (rows Scenario.seeded !! 1)
  /\ valid_payload Scenario.body_with_nul Scenario.row_with_nul
  /\ updateQuestion (IdInteger 1) Scenario.body_with_nul Scenario.seeded
     = (Scenario.seeded, internal_server_error).
Proof.
  split; [| split].
  - vm_compute. eauto.
  - unfold valid_payload; simpl. repeat split; try discriminate; try lia.
    exists (inject_Z 1). split; reflexivity.
  - vm_compute. reflexivity.
Qed.

(** ** Start-up *)

Lemma insert_sample_fresh (r : Row) (t : Table) :
  texts_accepted r ->
  rows t !! questions_id_seq t = None ->
  insert_question (Some (col_question r)) (col_options r)
    (Some (inject_Z (col_correct_answer r))) (Some (col_explanation r)) t
  = (mkTable (<[questions_id_seq t := r]> (rows t)) (questions_id_seq t + 1),
     Resolved (select_columns (questions_id_seq t) r)).
Proof.
  intros Htexts H. unfold insert_question. rewrite bind_integer_inject.
  unfold texts_accepted in Htexts. rewrite Htexts.
  cbn [not_null_row]. rewrite H. destruct r; reflexivity.
Qed.

(** C8. [initializeDatabase] on an empty table inserts the three sample
    questions and nothing else, under three consecutive keys from the
    sequence: the capital of France with correct index 2, the Red Planet with
    correct index 1, the largest mammal with correct index 1, each with four
    options.  On a table that is not empty it changes nothing. *)
Theorem initializeDatabase_seeds_exactly_when_empty (t : Table) :
  (count t = 0 ->
     let k := questions_id_seq t in
     let t' := fst (initializeDatabase t) in
     snd (initializeDatabase t) = Resolved tt
     /\ count t' = 3
     /\ rows t' !! k =
          Some (mkRow "What is the capital of France?"
                  ["London"; "Berlin"; "Paris"; "Madrid"] 2
                  "Paris has been the capital of France since the 12th century.")
     /\ rows t' !! (k + 1) =
          Some (mkRow "Which planet is known as the Red Planet?"
                  ["Venus"; "Mars"; "Jupiter"; "Saturn"] 1
                  "Mars appears red due to iron oxide (rust) on its surface.")
     /\ rows t' !! (k + 2) =
          Some (mkRow "What is the largest mammal in the world?"
                  ["African Elephant"; "Blue Whale"; "Giraffe"; "Polar Bear"] 1
                  "The Blue Whale can grow up to 100 feet long and weigh 200 tons.")
     /\ (forall j r, rows t' !! j = Some r -> length (col_options r) = 4%nat))
  /\ (count t <> 0 -> initializeDatabase t = (t, Resolved tt)).
Proof.
  split.
  - intros Hcount k t'. subst k t'. unfold initializeDatabase. rewrite Hcount.
    assert (rows t = ∅) as Hempty.
    { apply map_size_empty_inv. unfold count in Hcount. lia. }
    destruct t as [m k]. cbn [rows questions_id_seq] in *. subst m.
    change (0 =? 0) with true. cbv iota. unfold sampleQuestions, insert_samples.
    rewrite insert_sample_fresh by (reflexivity || apply lookup_empty).
    cbn [rows questions_id_seq].
    rewrite insert_sample_fresh
      by (reflexivity
          || (cbn [rows questions_id_seq]; rewrite lookup_insert_ne by lia; apply lookup_empty)).
    cbn [rows questions_id_seq].
    rewrite insert_sample_fresh
      by (reflexivity
          || (cbn [rows questions_id_seq]; rewrite !lookup_insert_ne by lia; apply lookup_empty)).
    cbn [fst snd rows questions_id_seq]. replace (k + 1 + 1) with (k + 2) by lia.
    split; [reflexivity |]. split.
    { unfold count. cbn [rows].
      rewrite !map_size_insert_None, map_size_empty; [reflexivity | ..];
        rewrite ?lookup_insert_ne by lia; apply lookup_empty. }
    split; [rewrite !lookup_insert_ne by lia; apply lookup_insert_eq |].
    split; [rewrite lookup_insert_ne by lia; apply lookup_insert_eq |].
    split; [apply lookup_insert_eq |].
    intros j r Hj.
    apply lookup_insert_Some in Hj as [[_ <-] | [_ Hj]]; [reflexivity |].
    apply lookup_insert_Some in Hj as [[_ <-] | [_ Hj]]; [reflexivity |].
    apply lookup_insert_Some in Hj as [[_ <-] | [_ Hj]]; [reflexivity |].
    rewrite lookup_empty in Hj. discriminate.
  - intros Hcount. unfold initializeDatabase.
    destruct (Z.eqb_spec (count t) 0); [contradiction | reflexivity].
Qed.

(** On a fresh database the three questions get the ids 1, 2, 3 and are
    listed in that order. *)
Lemma seeded_questions_listed :
  Scenario.seeded_questions =
    [ mkQuestion 1 "What is the capital of France?"
        ["London"; "Berlin"; "Paris"; "Madrid"] 2
        "Paris has been the capital of France since the 12th century.";
      mkQuestion 2 "Which planet is known as the Red Planet?"
        ["Venus"; "Mars"; "Jupiter"; "Saturn"] 1
        "Mars appears red due to iron oxide (rust) on its surface.";
      mkQuestion 3 "What is the largest mammal in the world?"
        ["African Elephant"; "Blue Whale"; "Giraffe"; "Polar Bear"] 1
        "The Blue Whale can grow up to 100 feet long and weigh 200 tons." ].
Proof. vm_compute. reflexivity. Qed.

End ServerProps.

(** * Properties of the client *)

Module ClientProps.

Import Server Client.

(** ** Rendering and single clicks *)

Lemma ready_playing qs : ready qs = playing qs 0 None 0 false false.
Proof. reflexivity. Qed.

Lemma render_playing qs i sel s shown q :
  at_index qs i = Some q -> render (playing qs i sel s shown false) = QuizScreen q.
Proof. intros H. unfold render, playing; simpl. rewrite H. reflexivity. Qed.

Lemma at_index_app (pre rest : list Question) (q : Question) :
  at_index (pre ++ q :: rest) (len pre) = Some q.
Proof.
  unfold at_index, len. destruct (Z.ltb_spec (Z.of_nat (length pre)) 0); [lia |].
  rewrite Nat2Z.id. apply list_lookup_middle. reflexivity.
Qed.

Lemma at_index_Some qs i q : at_index qs i = Some q -> 0 <= i < len qs.
Proof.
  unfold at_index, len. destruct (Z.ltb_spec i 0); [discriminate |].
  intros Hq. apply lookup_lt_Some in Hq. lia.
Qed.

Local Arguments at_index : simpl never.
Local Arguments len : simpl never.

Lemma step_select qs i sel s q a :
  at_index qs i = Some q -> selectable q a ->
  step (Select a) (playing qs i sel s false false)
  = Some (playing qs i (Some a) s false false).
Proof.
  intros Hq [Ha1 Ha2]. unfold step. rewrite (render_playing _ _ _ _ _ _ Hq).
  apply Z.leb_le in Ha1. apply Z.ltb_lt in Ha2. simpl. rewrite Ha1, Ha2. reflexivity.
Qed.

Lemma step_submit qs i s q a :
  at_index qs i = Some q ->
  step Submit (playing qs i (Some a) s false false)
  = Some (playing qs i (Some a) (s + (if a =? correctAnswer q then 1 else 0)) true false).
Proof.
  intros Hq. unfold step. rewrite (render_playing _ _ _ _ _ _ Hq).
  simpl. unfold handleSubmit. simpl. rewrite Hq.
  destruct (a =? correctAnswer q); simpl; unfold playing; rewrite ?Z.add_0_r; reflexivity.
Qed.

Lemma step_next qs i sel s q :
  at_index qs i = Some q ->
  step Next (playing qs i sel s true false)
  = Some (if i <? len qs - 1 then playing qs (i + 1) None s false false
          else playing qs i sel s true true).
Proof.
  intros Hq. unfold step. rewrite (render_playing _ _ _ _ _ _ Hq).
  simpl. unfold handleNext. simpl. destruct (i <? len qs - 1); reflexivity.
Qed.

(** One round: select, submit, next. *)
Lemma run_round qs i sel s q a events :
  at_index qs i = Some q -> selectable q a ->
  run (Select a :: Submit :: Next :: events) (playing qs i sel s false false)
  = run events
      (if i <? len qs - 1
       then playing qs (i + 1) None (s + (if a =? correctAnswer q then 1 else 0)) false false
       else playing qs i (Some a) (s + (if a =? correctAnswer q then 1 else 0)) true true).
Proof.
  intros Hq Ha. cbn [run].
  rewrite (step_select _ _ _ _ _ _ Hq Ha), (step_submit _ _ _ _ _ Hq), (step_next _ _ _ _ _ Hq).
  reflexivity.
Qed.

Lemma len_app pre rest : len (pre ++ rest) = len pre + len rest.
Proof. unfold len. rewrite length_app. lia. Qed.

Lemma matches_bounds qs sels : 0 <= Spec.matches qs sels <= len qs.
Proof.
  revert sels. unfold len. induction qs as [| q qs IH]; intros [| a sels]; simpl; try lia.
  specialize (IH sels). destruct (a =? correctAnswer q); lia.
Qed.

(** A whole run from question [len pre] on. *)
Lemma run_quiz_run rest : forall sels pre sel s,
  rest <> [] -> Forall2 selectable rest sels ->
  exists sel',
    run (quiz_run sels) (playing (pre ++ rest) (len pre) sel s false false)
    = Some (playing (pre ++ rest) (len (pre ++ rest) - 1) sel'
              (s + Spec.matches rest sels) true true).
Proof.
  induction rest as [| q rest IH]; intros sels pre sel s Hne Hsel; [congruence |].
  inversion Hsel as [| q' a rest' sels' Ha Hrest]; subst. clear Hne Hsel.
  change (quiz_run (a :: sels')) with (Select a :: Submit :: Next :: quiz_run sels').
  rewrite (run_round _ _ _ _ q a _ (at_index_app pre rest q) Ha).
  cbn [Spec.matches]. destruct rest as [| q2 rest].
  - inversion Hrest; subst. rewrite len_app.
    replace (len [q]) with 1 by reflexivity.
    destruct (Z.ltb_spec (len pre) (len pre + 1 - 1)); [lia |].
    replace (len pre + 1 - 1) with (len pre) by lia.
    exists (Some a). cbn [quiz_run flat_map run Spec.matches]. rewrite Z.add_0_r. reflexivity.
  - destruct (Z.ltb_spec (len pre) (len (pre ++ q :: q2 :: rest) - 1)) as [_ | H].
    2: { rewrite len_app in H. unfold len in H. simpl in H. lia. }
    destruct (IH sels' (pre ++ [q])%list None (s + (if a =? correctAnswer q then 1 else 0))
                ltac:(discriminate) Hrest) as [sel' Hrun].
    rewrite <- !app_assoc in Hrun. cbn [app] in Hrun.
    rewrite len_app in Hrun. replace (len [q]) with 1 in Hrun by reflexivity.
    rewrite Hrun. exists sel'. rewrite Z.add_assoc. reflexivity.
Qed.

(** ** The percentage of the completion screen *)

Lemma agrees_up_to_39 : Spec.agrees_up_to 39 = true.
Proof. vm_compute. reflexivity. Qed.

Lemma displayed_exact_below_40 (s n : Z) :
  0 <= s <= n -> 1 <= n <= 39 ->
  displayed s n = RoundedTo (Spec.exact_percentage s n).
Proof.
  intros Hs Hn. pose proof agrees_up_to_39 as H. unfold Spec.agrees_up_to in H.
  rewrite forallb_forall in H.
  assert (In (Z.to_nat n) (seq 1 39)) as Hin by (apply in_seq; lia).
  specialize (H (Z.to_nat n) Hin). rewrite forallb_forall in H.
  assert (In (Z.to_nat s) (seq 0 (S (Z.to_nat n)))) as Hin' by (apply in_seq; lia).
  specialize (H (Z.to_nat s) Hin'). rewrite !Z2Nat.id in H by lia.
  destruct (displayed s n) as [p | |]; try discriminate H.
  f_equal. apply Z.eqb_eq, H.
Qed.

(** ** A quiz run *)

(** A quiz run over N >= 1 questions in which each selection is one of the
    question's option buttons ends on the completion screen; the final score
    is the number of positions at which the selection equals the question's
    correctAnswer; the percentage displayed is what [percentage] computes,
    and it is the exactly rounded percentage whenever N is at most 39. *)
Theorem quiz_run_score_and_percentage (qs : list Question) (sels : list Z) :
  qs <> [] ->
  Forall2 selectable qs sels ->
  exists final,
    run (quiz_run sels) (ready qs) = Some final
    /\ render final = CompletionScreen
    /\ quizQuestions final = qs
    /\ score final = Spec.matches qs sels
    /\ percentage final = displayed (Spec.matches qs sels) (len qs)
    /\ (len qs <= 39 ->
          percentage final = RoundedTo (Spec.exact_percentage (Spec.matches qs sels) (len qs))).
Proof.
  intros Hne Hsel.
  destruct (run_quiz_run qs sels [] None 0 Hne Hsel) as [sel' Hrun].
  cbn [app] in Hrun. change (len []) with 0 in Hrun. rewrite Z.add_0_l in Hrun.
  eexists. split; [exact Hrun |].
  split; [reflexivity |]. split; [reflexivity |]. split; [reflexivity |].
  split; [reflexivity |].
  intros Hlen. unfold percentage. cbn [score quizQuestions playing].
  apply displayed_exact_below_40; [apply matches_bounds |].
  split; [| exact Hlen]. destruct qs; [congruence |]. unfold len. simpl. lia.
Qed.

Lemma seeded_selectable (sels : list Z) :
  Forall (fun a => 0 <= a < 4) sels -> length sels = 3%nat ->
  Forall2 selectable Scenario.seeded_questions sels.
Proof.
  intros H Hlen. rewrite ServerProps.seeded_questions_listed.
  destruct sels as [| a [| b [| c [| d sels]]]]; try discriminate.
  inversion H as [| ? ? Ha H1]; subst. inversion H1 as [| ? ? Hb H2]; subst.
  inversion H2 as [| ? ? Hc _]; subst.
  repeat constructor; unfold selectable; simpl; lia.
Qed.

(** The two scenarios on the three seeded questions: all answers right gives
    score 3 and 100%; the first wrong and the others right gives score 2 and
    67%. *)
Lemma quiz_run_score_and_percentage_witness :
  (exists final,
     run (quiz_run [2; 1; 1]) (ready Scenario.seeded_questions) = Some final
     /\ score final = 3 /\ percentage final = RoundedTo 100)
  /\ (exists final,
     run (quiz_run [0; 1; 1]) (ready Scenario.seeded_questions) = Some final
     /\ score final = 2 /\ percentage final = RoundedTo 67).
Proof.
  assert (Scenario.seeded_questions <> []) as Hne
    by (rewrite ServerProps.seeded_questions_listed; discriminate).
  split.
  - destruct (quiz_run_score_and_percentage Scenario.seeded_questions [2; 1; 1] Hne)
      as (final & Hrun & _ & _ & Hscore & Hpct & _).
    { apply seeded_selectable; [repeat constructor; lia | reflexivity]. }
    exists final. split; [exact Hrun |]. split.
    + rewrite Hscore. vm_compute. reflexivity.
    + rewrite Hpct. vm_compute. reflexivity.
  - destruct (quiz_run_score_and_percentage Scenario.seeded_questions [0; 1; 1] Hne)
      as (final & Hrun & _ & _ & Hscore & Hpct & _).
    { apply seeded_selectable; [repeat constructor; lia | reflexivity]. }
    exists final. split; [exact Hrun |]. split.
    + rewrite Hscore. vm_compute. reflexivity.
    + rewrite Hpct. vm_compute. reflexivity.
Defined.

(** C6 at an input where the code departs from it.  With forty questions of
    which twenty-three are answered right, the score is 23, as the claim
    says, and round(23/40*100) is round(57.5) = 58; the completion screen
    shows 57, because [(score / quizQuestions.length) * 100] is computed in
    binary64, where the quotient 23/40 is rounded before it is multiplied and
    the product is 57.49999999999999... *)
Lemma percentage_of_23_in_40_is_57 :
  len Scenario.forty_questions = 40
  /\ Spec.matches Scenario.forty_questions Scenario.twenty_three_right = 23
  /\ score <$> run (quiz_run Scenario.twenty_three_right) (ready Scenario.forty_questions)
     = Some 23
  /\ percentage <$> run (quiz_run Scenario.twenty_three_right) (ready Scenario.forty_questions)
     = Some (RoundedTo 57)
  /\ Spec.exact_percentage 23 40 = 58.
Proof. vm_compute. repeat split. Qed.

(** ** Submit without a selection *)

(** C9. In every state with no selected answer, [handleSubmit] changes
    nothing: score, current index, selection and result flag (and every other
    cell) are as before. *)
Theorem submit_without_selection_changes_nothing (st : State) :
  selectedAnswer st = None ->
  handleSubmit st = st
  /\ score (handleSubmit st) = score st
  /\ currentQuestion (handleSubmit st) = currentQuestion st
  /\ selectedAnswer (handleSubmit st) = None
  /\ showResult (handleSubmit st) = showResult st.
Proof.
  intros H. unfold handleSubmit. rewrite H. repeat split. exact H.
Qed.

Lemma submit_without_selection_changes_nothing_witness :
  selectedAnswer (ready Scenario.seeded_questions) = None
  /\ handleSubmit (ready Scenario.seeded_questions) = ready Scenario.seeded_questions.
Proof.
  split; [reflexivity |].
  apply (submit_without_selection_changes_nothing (ready Scenario.seeded_questions)).
  reflexivity.
Defined.

(** ** The score along any sequence of clicks *)

Lemma render_QuizScreen st q :
  render st = QuizScreen q ->
  at_index (quizQuestions st) (currentQuestion st) = Some q /\ quizCompleted st = false.
Proof.
  unfold render. destruct (loading st); [discriminate |].
  destruct (_ && _); [discriminate |].
  destruct (editMode st), (editingQuestion st), (quizCompleted st);
    try discriminate;
    destruct (at_index _ _); try discriminate; intros [= ->]; split; reflexivity.
Qed.

Lemma step_score e st st' :
  score_invariant st -> step e st = Some st' ->
  score_invariant st'
  /\ quizQuestions st' = quizQuestions st
  /\ score_effect e (score st) (score st').
Proof.
  unfold score_invariant. intros (Hs & Hc & Hn) Hstep. unfold step in Hstep.
  destruct (render st) as [| | d | | q |] eqn:Hrender; try discriminate.
  - destruct e; try discriminate. injection Hstep as <-.
    unfold len in *. simpl. repeat split; lia.
  - apply render_QuizScreen in Hrender as [Hq Hcompleted].
    pose proof (at_index_Some _ _ _ Hq) as Hi.
    destruct e as [a | | |]; try discriminate.
    + destruct (_ && _); [| discriminate]. injection Hstep as <-.
      simpl. repeat split; assumption || reflexivity || lia.
    + destruct (showResult st) eqn:Hshown; [discriminate |].
      unfold handleSubmit in Hstep. destruct (selectedAnswer st) as [a |]; [| discriminate].
      simpl in Hstep. rewrite Hq in Hstep. injection Hstep as <-.
      destruct (a =? correctAnswer q); simpl; repeat split; auto; lia.
    + destruct (showResult st) eqn:Hshown; [| discriminate]. injection Hstep as <-.
      unfold handleNext. destruct (Z.ltb_spec (currentQuestion st) (len (quizQuestions st) - 1));
        simpl; rewrite ?Hshown; repeat split; lia.
Qed.

Lemma run_score events : forall st st',
  score_invariant st -> run events st = Some st' ->
  score_invariant st' /\ quizQuestions st' = quizQuestions st.
Proof.
  induction events as [| e events IH]; intros st st' Hinv Hrun; simpl in Hrun.
  - injection Hrun as <-. split; [exact Hinv | reflexivity].
  - destruct (step e st) as [st1 |] eqn:Hstep; [| discriminate].
    destruct (step_score e st st1 Hinv Hstep) as (Hinv1 & Hqs1 & _).
    destruct (IH st1 st' Hinv1 Hrun) as [Hinv' Hqs']. split; [exact Hinv' | congruence].
Qed.

Lemma ready_score_invariant qs : score_invariant (ready qs).
Proof. unfold score_invariant, len. simpl. lia. Qed.

(** C10, as the code has it.  In every state reached from the ready state by
    clicks on option, submit, next and restart buttons, 0 <= score <=
    currentQuestion + 1 and the score is at most the number of questions; a
    click on an option or on next leaves the score, a click on submit adds 0
    or 1, and a click on restart sets it to 0, so that no click raises the
    score by more than 1. *)
Theorem score_bounded_along_clicks (qs : list Question) (events : list Event) (st : State) :
  run events (ready qs) = Some st ->
  0 <= score st <= currentQuestion st + 1
  /\ score st <= len qs
  /\ (forall e st', step e st = Some st' ->
        score_effect e (score st) (score st') /\ score st' <= score st + 1).
Proof.
  intros Hrun.
  destruct (run_score events (ready qs) st (ready_score_invariant qs) Hrun) as [Hinv Hqs].
  change (quizQuestions (ready qs)) with qs in Hqs.
  pose proof Hinv as (Hs & Hc & Hn). rewrite Hqs in Hn.
  split; [destruct (showResult st); lia |].
  split; [destruct (showResult st); lia |].
  intros e st' Hstep. destruct (step_score e st st' Hinv Hstep) as (_ & _ & Heffect).
  split; [exact Heffect |].
  destruct e; simpl in Heffect; lia.
Qed.

Lemma score_bounded_along_clicks_witness :
  exists st,
    run (quiz_run [2; 1]) (ready Scenario.seeded_questions) = Some st
    /\ 0 <= score st <= currentQuestion st + 1.
Proof.
  destruct (run (quiz_run [2; 1]) (ready Scenario.seeded_questions)) as [st |] eqn:Hrun.
  - exists st. split; [reflexivity |].
    apply (score_bounded_along_clicks Scenario.seeded_questions (quiz_run [2; 1]) st Hrun).
  - vm_compute in Hrun. discriminate Hrun.
Defined.

(** C10, as stated, fails on its last part: after the three seeded questions
    were answered right the score is 3, and the click on restart, which is
    then enabled, changes it to 0. *)
Lemma restart_changes_score_by_three :
  score <$> run (quiz_run [2; 1; 1]) (ready Scenario.seeded_questions) = Some 3
  /\ score <$> run (quiz_run [2; 1; 1] ++ [Restart]) (ready Scenario.seeded_questions)
     = Some 0.
Proof. vm_compute. split; reflexivity. Qed.

(** ** Saving a draft *)

Lemma Math_max_None l : Math_max l = None -> l = [].
Proof. destruct l as [| q l]; [reflexivity |]. simpl. destruct (Math_max l); discriminate. Qed.

(** [Math.max] of the ids is an upper bound that is attained. *)
Lemma Math_max_Some l m :
  Math_max l = Some m -> Forall (fun q => id q <= m) l /\ Exists (fun q => id q = m) l.
Proof.
  revert m. induction l as [| q l IH]; intros m; simpl; [discriminate |].
  destruct (Math_max l) as [m' |] eqn:E.
  - intros [= <-]. destruct (IH m' eq_refl) as [Hall Hex]. split.
    + constructor; [lia |]. eapply Forall_impl; [exact Hall |]. simpl. intros; lia.
    + destruct (Z.max_spec (id q) m') as [[_ ->] | [_ ->]];
        [apply Exists_cons_tl, Hex | apply Exists_cons_hd; reflexivity].
  - intros [= <-]. apply Math_max_None in E. subst l. split; repeat constructor. lia.
Qed.

(** The comparison of [handleSaveQuestion]: the draft's id is above every
    loaded id. *)
Lemma exceeds_max_spec draft l :
  exceeds_max draft l = true <-> Forall (fun q => id q < id draft) l.
Proof.
  unfold exceeds_max. destruct (Math_max l) as [m |] eqn:E.
  - destruct (Math_max_Some l m E) as [Hall Hex]. rewrite Z.ltb_lt. split.
    + intros Hm. eapply Forall_impl; [exact Hall |]. simpl. intros; lia.
    + intros H. apply Exists_exists in Hex as (q & Hq & <-).
      rewrite Forall_forall in H. apply H, Hq.
  - apply Math_max_None in E. subst l. split; [constructor | reflexivity].
Qed.

(** The draft of "+ Add New Question" is above every loaded id. *)
Lemma handleAddQuestion_saves_by_create st :
  exists draft b,
    editingQuestion (handleAddQuestion st) = Some draft
    /\ save_request (handleAddQuestion st) = Some (POST_question b).
Proof.
  eexists. eexists. split; [reflexivity |].
  unfold save_request, handleAddQuestion. cbn [editingQuestion setEditMode setEditingQuestion quizQuestions].
  match goal with |- context [exceeds_max ?d ?l] =>
    assert (exceeds_max d l = true) as -> end; [| reflexivity].
  unfold exceeds_max, next_draft_id. cbn [id].
  destruct (Math_max (quizQuestions st)); [apply Z.ltb_lt; lia | reflexivity].
Qed.

(** While a draft is edited, Save issues Create (POST) exactly when the
    draft's id is above the id of every loaded question, and Update (PUT on
    the draft's id) otherwise, with the draft's four fields as body.  On
    success the list is replaced by the re-fetched one and editing ends;
    [handleSaveQuestion] writes none of the current index, the selection, the
    score, the result flag and the completion flag.  When the request is
    refused the draft stays open with the message. *)
Theorem save_creates_above_max_and_keeps_index (st : State) (draft : Question) :
  editingQuestion st = Some draft ->
  save_request st =
    Some (if exceeds_max draft (quizQuestions st)
          then POST_question (save_body draft)
          else PUT_question (IdInteger (id draft)) (save_body draft))
  /\ (exceeds_max draft (quizQuestions st) = true <->
        Forall (fun q => id q < id draft) (quizQuestions st))
  /\ (forall questions,
        let st' := handleSaveQuestion (Answered true tt) (Answered true questions) st in
        quizQuestions st' = questions
        /\ editMode st' = false
        /\ editingQuestion st' = None
        /\ currentQuestion st' = currentQuestion st
        /\ selectedAnswer st' = selectedAnswer st
        /\ score st' = score st
        /\ showResult st' = showResult st
        /\ quizCompleted st' = quizCompleted st)
  /\ (forall refetch,
        let st' := handleSaveQuestion (Answered false tt) refetch st in
        quizQuestions st' = quizQuestions st
        /\ editMode st' = editMode st
        /\ editingQuestion st' = Some draft
        /\ error st' = Some "Failed to save question").
Proof.
  intros Hdraft. split; [unfold save_request; rewrite Hdraft; reflexivity |].
  split; [apply exceeds_max_spec |].
  unfold handleSaveQuestion. rewrite Hdraft. split.
  - intros questions. repeat split.
  - intros refetch. simpl. repeat split. exact Hdraft.
Qed.

Lemma save_creates_above_max_and_keeps_index_witness :
  editingQuestion (handleAddQuestion (ready Scenario.seeded_questions))
  = Some Scenario.fourth_draft
  /\ save_request (handleAddQuestion (ready Scenario.seeded_questions))
     = Some (POST_question (save_body Scenario.fourth_draft)).
Proof.
  assert (editingQuestion (handleAddQuestion (ready Scenario.seeded_questions))
          = Some Scenario.fourth_draft) as Hdraft
    by (vm_compute; reflexivity).
  split; [exact Hdraft |].
  destruct (save_creates_above_max_and_keeps_index _ _ Hdraft) as [Hrequest _].
  rewrite Hrequest. vm_compute. reflexivity.
Defined.

(** C7 at an input where the code departs from it.  A player is at the third
    of the three seeded questions (index 2) and has opened a new draft;
    another client has meanwhile deleted questions 2 and 3.  Save issues
    Create, as the claim says, the server answers 201, and the re-fetched
    list has two questions, so that index 2 no longer exists in it.  The
    claim has the state return to index 0; [handleSaveQuestion] leaves the
    index at 2, and the quiz screen reads [quizQuestions[2].question] of a
    question that is not there. *)
Lemma save_keeps_index_that_no_longer_exists :
  currentQuestion <$> Scenario.adding_at_third_question = Some 2
  /\ save_request <$> Scenario.adding_at_third_question
     = Some (Some (POST_question (save_body Scenario.fourth_draft)))
  /\ status (snd (serve (POST_question (save_body Scenario.fourth_draft)) Scenario.last_row))
     = 201
  /\ (fun st => len (quizQuestions st)) <$> Scenario.saved_after_foreign_deletes = Some 2
  /\ (fun st => at_index (quizQuestions st) 2) <$> Scenario.saved_after_foreign_deletes
     = Some None
  /\ editMode <$> Scenario.saved_after_foreign_deletes = Some false
  /\ currentQuestion <$> Scenario.saved_after_foreign_deletes = Some 2
  /\ render <$> Scenario.saved_after_foreign_deletes = Some RenderThrows.
Proof. vm_compute. repeat split. Qed.

(** The reset to index 0 is in [handleDeleteQuestion]: after a successful
    Delete the index goes back to 0, with no selection and no result shown,
    when it was at or past the last position of the list held before the
    request; otherwise it stays. *)
Lemma handleDeleteQuestion_resets_index st questions :
  1 < len (quizQuestions st) ->
  let st' := handleDeleteQuestion (Answered true tt) (Answered true questions) st in
  quizQuestions st' = questions
  /\ editMode st' = false
  /\ currentQuestion st' =
       (if len (quizQuestions st) - 1 <=? currentQuestion st then 0 else currentQuestion st).
Proof.
  intros Hlen. unfold handleDeleteQuestion.
  destruct (Z.leb_spec (len (quizQuestions st)) 1); [lia |].
  destruct (len (quizQuestions st) - 1 <=? currentQuestion st); repeat split.
Qed.

End ClientProps.

(** * More properties of the server *)

Module ServerMore.

Import Server Requests.

(** ** What one request does to the table *)

(** Every handler answers with one of five statuses; only 201 adds a row,
    only a 200 of Delete removes one, only a 200 of Update rewrites one. *)
Lemma serve_cases r t :
  let t' := fst (serve r t) in
  let s := status (snd (serve r t)) in
  (s <> 200 /\ s <> 201 /\ known_status s /\ rows t' = rows t)
  \/ (s = 200 /\ t' = t)
  \/ (s = 201 /\ (exists b row, r = POST_question b
                   /\ validation_passes b = true
                   /\ body_question b = Some (col_question row)
                   /\ body_options b = ArrayOf (col_options row)
                   /\ bind_integer (body_correctAnswer b) = Resolved (Some (col_correct_answer row))
                   /\ rows t !! questions_id_seq t = None
                   /\ t' = mkTable (<[questions_id_seq t := row]> (rows t)) (questions_id_seq t + 1)
                   /\ json (snd (serve r t)) = JsonQuestion (select_columns (questions_id_seq t) row)))
  \/ (s = 200 /\ (exists k b row, r = PUT_question (IdInteger k) b
                   /\ validation_passes b = true
                   /\ body_question b = Some (col_question row)
                   /\ body_options b = ArrayOf (col_options row)
                   /\ bind_integer (body_correctAnswer b) = Resolved (Some (col_correct_answer row))
                   /\ is_Some (rows t !! k)
                   /\ t' = mkTable (<[k := row]> (rows t)) (questions_id_seq t)))
  \/ (s = 200 /\ (exists k, r = DELETE_question (IdInteger k)
                   /\ 2 <= count t /\ is_Some (rows t !! k)
                   /\ t' = mkTable (delete k (rows t)) (questions_id_seq t))).
Proof.
  unfold known_status.
  destruct r as [| i | b | i b | i]; cbn [serve fst snd].
  - right; left. split; reflexivity.
  - unfold getQuestionById, select_question. destruct i as [k |].
    + destruct (rows t !! k); [right; left; split; reflexivity |].
      left. destruct (in_int4 k); cbn; repeat split; try discriminate; tauto.
    + left. cbn. repeat split; try discriminate. tauto.
  - unfold createQuestion, validation_passes.
    destruct (not_question _ || not_four_options _) eqn:E1.
    { left. cbn. repeat split; try discriminate. tauto. }
    destruct (lt_zero _ || gt_three _) eqn:E2.
    { left. cbn. repeat split; try discriminate. tauto. }
    unfold insert_question.
    destruct (bind_integer (body_correctAnswer b)) as [| c] eqn:E3.
    { left. cbn. repeat split; try discriminate. tauto. }
    destruct (refused_text _ _ _).
    { left. cbn. repeat split; try discriminate. tauto. }
    destruct (body_question b) as [q |] eqn:Eq; [| discriminate E1].
    destruct (body_options b) as [| o] eqn:Eo; [rewrite orb_true_r in E1; discriminate E1 |].
    cbn [entries_of not_null_row].
    destruct c as [c |]; [| left; cbn; repeat split; try discriminate; tauto].
    destruct (body_explanation b) as [e |];
      [| left; cbn; repeat split; try discriminate; tauto].
    destruct (rows t !! questions_id_seq t) eqn:Ek.
    { left. cbn. repeat split; try discriminate. tauto. }
    right; right; left. split; [reflexivity |].
    exists b, (mkRow q o c e). cbn. rewrite Eq, Eo, E3. repeat split.
    rewrite E1, E2. reflexivity.
  - unfold updateQuestion, validation_passes.
    destruct (not_question _ || not_four_options _) eqn:E1.
    { left. cbn. repeat split; try discriminate. tauto. }
    destruct (lt_zero _ || gt_three _) eqn:E2.
    { left. cbn. repeat split; try discriminate. tauto. }
    unfold update_question.
    destruct (bind_integer (body_correctAnswer b)) as [| c] eqn:E3, i as [k |];
      try (left; cbn; repeat split; try discriminate; tauto).
    destruct (refused_text _ _ _).
    { left. cbn. repeat split; try discriminate. tauto. }
    destruct (rows t !! k) eqn:Ek;
      [| left; destruct (in_int4 k); cbn; repeat split; try discriminate; tauto].
    destruct (body_question b) as [q |] eqn:Eq; [| discriminate E1].
    destruct (body_options b) as [| o] eqn:Eo; [rewrite orb_true_r in E1; discriminate E1 |].
    cbn [entries_of not_null_row].
    destruct c as [c |]; [| left; cbn; repeat split; try discriminate; tauto].
    destruct (body_explanation b) as [e |];
      [| left; cbn; repeat split; try discriminate; tauto].
    right; right; right; left. split; [reflexivity |].
    exists k, b, (mkRow q o c e). cbn. rewrite Eq, Eo, E3, Ek. repeat split; eauto.
    rewrite E1, E2. reflexivity.
  - unfold deleteQuestion, delete_question.
    destruct (Z.leb_spec (count t) 1).
    { left. cbn. repeat split; try discriminate. tauto. }
    destruct i as [k |]; [| left; cbn; repeat split; try discriminate; tauto].
    destruct (rows t !! k) eqn:Ek;
      [| left; destruct (in_int4 k); cbn; repeat split; try discriminate; tauto].
    right; right; right; right. split; [reflexivity |].
    exists k. rewrite Ek. repeat split; eauto. lia.
Qed.


(** The count after a request: the same, one more after a 201, or one less
    after a Delete that found at least two rows. *)
Lemma count_serve r t :
  count (fst (serve r t)) = count t
  \/ (status (snd (serve r t)) = 201 /\ count (fst (serve r t)) = count t + 1)
  \/ (2 <= count t /\ count (fst (serve r t)) = count t - 1).
Proof.
  destruct (serve_cases r t) as
    [(_ & _ & _ & H) | [(_ & H) | [(Hs & b & row & _ & _ & _ & _ & _ & Hk & H & _)
      | [(_ & k & b & row & _ & _ & _ & _ & _ & Hk & H)
      | (_ & k & _ & Hc & Hk & H)]]]]; unfold count in *.
  - left. rewrite H. reflexivity.
  - left. rewrite H. reflexivity.
  - right; left. split; [exact Hs |]. rewrite H. cbn [rows].
    rewrite map_size_insert_None by exact Hk. lia.
  - left. rewrite H. cbn [rows]. rewrite map_size_insert_Some by exact Hk. reflexivity.
  - right; right. split; [exact Hc |]. rewrite H. cbn [rows].
    rewrite map_size_delete_Some by exact Hk. lia.
Qed.

(** [initializeDatabase] on an empty table, whatever the sequence. *)
Lemma initializeDatabase_empty k :
  initializeDatabase (mkTable ∅ k)
  = (mkTable (<[k + 2 := mkRow "What is the largest mammal in the world?"
                          ["African Elephant"; "Blue Whale"; "Giraffe"; "Polar Bear"] 1
                          "The Blue Whale can grow up to 100 feet long and weigh 200 tons."]>
             (<[k + 1 := mkRow "Which planet is known as the Red Planet?"
                          ["Venus"; "Mars"; "Jupiter"; "Saturn"] 1
                          "Mars appears red due to iron oxide (rust) on its surface."]>
             (<[k := mkRow "What is the capital of France?"
                          ["London"; "Berlin"; "Paris"; "Madrid"] 2
                          "Paris has been the capital of France since the 12th century."]> ∅)))
       (k + 3),
     Resolved tt).
Proof.
  unfold initializeDatabase, count. cbn [rows]. rewrite map_size_empty.
  change (Z.of_nat 0 =? 0) with true. cbv iota. unfold sampleQuestions, insert_samples.
  rewrite ServerProps.insert_sample_fresh by (reflexivity || apply lookup_empty).
  cbn [rows questions_id_seq].
  rewrite ServerProps.insert_sample_fresh
    by (reflexivity
        || (cbn [rows questions_id_seq]; rewrite lookup_insert_ne by lia; apply lookup_empty)).
  cbn [rows questions_id_seq].
  rewrite ServerProps.insert_sample_fresh
    by (reflexivity
        || (cbn [rows questions_id_seq]; rewrite !lookup_insert_ne by lia; apply lookup_empty)).
  cbn [rows questions_id_seq]. replace (k + 1 + 1) with (k + 2) by lia.
  replace (k + 2 + 1) with (k + 3) by lia. reflexivity.
Qed.

Lemma table_empty t : count t = 0 -> t = mkTable ∅ (questions_id_seq t).
Proof.
  intros H. destruct t as [m k]. cbn. f_equal.
  apply map_size_empty_inv. unfold count in H. cbn in H. lia.
Qed.

Lemma initializeDatabase_cases t :
  (count t = 0 /\ count (fst (initializeDatabase t)) = 3)
  \/ (1 <= count t /\ initializeDatabase t = (t, Resolved tt)).
Proof.
  destruct (Z.eqb_spec (count t) 0) as [H | H].
  - left. split; [exact H |]. rewrite (table_empty t H), initializeDatabase_empty.
    unfold count. cbn [fst rows].
    rewrite !map_size_insert_None, map_size_empty; [reflexivity | ..];
      rewrite ?lookup_insert_ne by lia; apply lookup_empty.
  - right. assert (0 <= count t) by (unfold count; lia). split; [lia |].
    unfold initializeDatabase. destruct (Z.eqb_spec (count t) 0); [contradiction | reflexivity].
Qed.

Lemma serve_all_nonempty requests : forall t,
  1 <= count t -> 1 <= count (serve_all requests t).
Proof.
  induction requests as [| r requests IH]; intros t H; cbn [serve_all]; [exact H |].
  apply IH. destruct (count_serve r t) as [-> | [[_ ->] | [? ->]]]; lia.
Qed.


(** A number that binds as the integer [c] is equal to it. *)
Lemma bind_integer_Some (n : Q) (c : Z) :
  bind_integer (Some n) = Resolved (Some c) -> (n == inject_Z c)%Q.
Proof.
  unfold bind_integer. destruct (Z.eqb_spec (Qnum n mod Z.pos (Qden n)) 0) as [H |]; [| discriminate].
  intros [= <-]. unfold Qeq. cbn. rewrite Z.mul_1_r.
  rewrite (Z.div_mod (Qnum n) (Z.pos (Qden n))) at 1 by discriminate. lia.
Qed.

(** What the validation and the binding leave of a body is a row of the data
    model. *)
Lemma accepted_row_ok b row :
  validation_passes b = true ->
  body_question b = Some (col_question row) ->
  body_options b = ArrayOf (col_options row) ->
  bind_integer (body_correctAnswer b) = Resolved (Some (col_correct_answer row)) ->
  row_ok row.
Proof.
  unfold validation_passes, row_ok. intros Hv Hq Ho Hc.
  apply andb_prop in Hv as [H1 H2]. apply negb_true_iff in H1, H2.
  apply orb_false_elim in H1 as [H1q H1o], H2 as [H2l H2g].
  rewrite Hq in H1q. rewrite Ho in H1o. split; [| split].
  - intros E. unfold not_question in H1q. rewrite E in H1q. discriminate.
  - cbn in H1o. apply negb_false_iff, Nat.eqb_eq in H1o. exact H1o.
  - destruct (body_correctAnswer b) as [n |]; [| discriminate Hc].
    apply bind_integer_Some in Hc.
    rewrite (ServerProps.lt_zero_Qeq _ _ Hc) in H2l.
    rewrite (ServerProps.gt_three_Qeq _ _ Hc) in H2g.
    apply Z.ltb_ge in H2l, H2g. lia.
Qed.

Lemma rows_ok_serve r t : rows_ok t -> rows_ok (fst (serve r t)).
Proof.
  intros H.
  destruct (serve_cases r t) as
    [(_ & _ & _ & E) | [(_ & E) | [(_ & b & row & _ & Hv & Hq & Ho & Hc & _ & E & _)
      | [(_ & k & b & row & _ & Hv & Hq & Ho & Hc & _ & E)
      | (_ & k & _ & _ & _ & E)]]]]; unfold rows_ok in *.
  - rewrite E. exact H.
  - rewrite E. exact H.
  - rewrite E. cbn [rows]. intros j r' Hj.
    apply lookup_insert_Some in Hj as [[_ <-] | [_ Hj]];
      [eapply accepted_row_ok; eassumption | eapply H, Hj].
  - rewrite E. cbn [rows]. intros j r' Hj.
    apply lookup_insert_Some in Hj as [[_ <-] | [_ Hj]];
      [eapply accepted_row_ok; eassumption | eapply H, Hj].
  - rewrite E. cbn [rows]. intros j r' Hj.
    apply lookup_delete_Some in Hj as [_ Hj]. eapply H, Hj.
Qed.

Lemma rows_ok_serve_all requests : forall t, rows_ok t -> rows_ok (serve_all requests t).
Proof.
  induction requests as [| r requests IH]; intros t H; cbn [serve_all]; [exact H |].
  apply IH, rows_ok_serve, H.
Qed.

Lemma rows_ok_initializeDatabase t : rows_ok t -> rows_ok (fst (initializeDatabase t)).
Proof.
  intros H. destruct (initializeDatabase_cases t) as [[H0 _] | [_ ->]]; [| exact H].
  rewrite (table_empty t H0), initializeDatabase_empty. cbn [fst].
  intros j r Hj. cbn [rows] in Hj. unfold row_ok.
  apply lookup_insert_Some in Hj as [[_ <-] | [_ Hj]]; [cbn; repeat split; discriminate || lia |].
  apply lookup_insert_Some in Hj as [[_ <-] | [_ Hj]]; [cbn; repeat split; discriminate || lia |].
  apply lookup_insert_Some in Hj as [[_ <-] | [_ Hj]]; [cbn; repeat split; discriminate || lia |].
  rewrite lookup_empty in Hj. discriminate.
Qed.

(** The keys after a request are keys of before or the value of the
    sequence, and the sequence does not go back. *)
Lemma keys_serve r t :
  questions_id_seq t <= questions_id_seq (fst (serve r t))
  /\ (forall k, is_Some (rows (fst (serve r t)) !! k) ->
        is_Some (rows t !! k) \/ k = questions_id_seq t).
Proof.
  destruct r as [| i | b | i b | i]; cbn [serve fst].
  - split; [lia | auto].
  - split; [lia | auto].
  - unfold createQuestion, insert_question.
    destruct (_ || _); [split; [cbn; lia | auto] |].
    destruct (_ || _); [split; [cbn; lia | auto] |].
    destruct (bind_integer _) as [| c]; [split; [cbn; lia | auto] |].
    destruct (refused_text _ _ _); [split; [cbn; lia | auto] |].
    destruct (not_null_row _ _ _ _); [| split; [cbn; lia | auto]].
    destruct (rows t !! questions_id_seq t); [split; [cbn; lia | auto] |].
    cbn. split; [lia |]. intros k Hk.
    apply lookup_insert_is_Some in Hk as [<- | [_ Hk]]; auto.
  - destruct (ServerProps.updateQuestion_rows i b t) as [_ | ->]; [| split; [lia | auto]].
    unfold updateQuestion, update_question.
    destruct (_ || _); [split; [cbn; lia | auto] |].
    destruct (_ || _); [split; [cbn; lia | auto] |].
    destruct (bind_integer _) as [| c], i as [k |]; try (split; [cbn; lia | auto]).
    destruct (refused_text _ _ _); [split; [cbn; lia | auto] |].
    destruct (rows t !! k) eqn:E; [| destruct (in_int4 k); (split; [cbn; lia | auto])].
    destruct (not_null_row _ _ _ _); [| split; [cbn; lia | auto]].
    cbn. split; [lia |]. intros j Hj.
    apply lookup_insert_is_Some in Hj as [<- | [_ Hj]]; [left; rewrite E; eauto | auto].
  - unfold deleteQuestion, delete_question.
    destruct (count t <=? 1); [split; [cbn; lia | auto] |].
    destruct i as [k |]; [| split; [cbn; lia | auto]].
    destruct (rows t !! k) eqn:E; [| destruct (in_int4 k); (split; [cbn; lia | auto])].
    cbn. split; [lia |]. intros j Hj.
    apply lookup_delete_is_Some in Hj as [_ Hj]. auto.
Qed.

Lemma keys_serve_all requests : forall t,
  questions_id_seq t <= questions_id_seq (serve_all requests t)
  /\ (forall k, is_Some (rows (serve_all requests t) !! k) ->
        is_Some (rows t !! k) \/ questions_id_seq t <= k).
Proof.
  induction requests as [| r requests IH]; intros t; cbn [serve_all].
  - split; [lia | auto].
  - destruct (keys_serve r t) as [Hseq Hkeys].
    destruct (IH (fst (serve r t))) as [Hseq' Hkeys']. split; [lia |].
    intros k Hk. destruct (Hkeys' k Hk) as [H | H]; [| right; lia].
    destruct (Hkeys k H) as [H' | ->]; [left; exact H' | right; lia].
Qed.

Lemma sequence_ahead_serve_all requests : forall t,
  sequence_ahead t -> sequence_ahead (serve_all requests t).
Proof.
  induction requests as [| r requests IH]; intros t H; cbn [serve_all]; [exact H |].
  apply IH, ServerProps.sequence_ahead_serve, H.
Qed.

(** The list has no two entries with the same id. *)
Lemma select_questions_ids t : NoDup (id <$> select_questions t).
Proof.
  unfold select_questions. rewrite merge_sort_Permutation, <- list_fmap_compose.
  apply (NoDup_fst_map_to_list (rows t)).
Qed.

Lemma sorted_distinct_strict (l : list Question) :
  StronglySorted by_id l -> NoDup (id <$> l) ->
  StronglySorted (fun a b => id a < id b) l.
Proof.
  induction 1 as [| q l Hl IH Hall]; intros Hnd; [constructor |].
  rewrite fmap_cons in Hnd. apply NoDup_cons in Hnd as [Hq Hnd].
  constructor; [apply IH, Hnd |].
  rewrite Forall_forall in *. intros x Hx. specialize (Hall x Hx). unfold by_id in Hall.
  assert (id q <> id x).
  { intros E. apply Hq. rewrite E. apply list_elem_of_fmap. eauto. }
  lia.
Qed.

#[local] Instance by_id_transitive : Transitive by_id.
Proof. intros a b c. unfold by_id. lia. Qed.


(** Create with a valid payload that the database takes, on a table whose
    sequence is ahead. *)
Lemma createQuestion_valid b row t :
  sequence_ahead t -> valid_payload b row -> texts_accepted row ->
  createQuestion b t
  = (mkTable (<[questions_id_seq t := row]> (rows t)) (questions_id_seq t + 1),
     mkResponse 201 (JsonQuestion (select_columns (questions_id_seq t) row))).
Proof.
  intros Hseq Hvalid Htexts.
  pose proof (ServerProps.valid_payload_accepted b row Hvalid Htexts) as Haccepted.
  pose proof (ServerProps.sequence_ahead_fresh t Hseq) as Hfresh.
  destruct (ServerProps.valid_payload_passes b row Hvalid) as (H1 & H2 & H3).
  destruct Hvalid as (Hq & _ & Ho & _ & _ & _ & He).
  unfold createQuestion, insert_question. rewrite H1, H2, H3, Haccepted, Hq, Ho, He.
  cbn [entries_of not_null_row]. rewrite Hfresh. destruct row; reflexivity.
Qed.

(** ** Extras *)

(** Once the server has started, the table is never empty as long as the
    requests are served one at a time, whatever the table was before the
    start and whatever the requests are: start-up seeds an empty table, and
    a Delete that has the table to itself refuses to remove the last row.
    Deletes that overlap are the runs of [overlapping_deletes]. *)
Theorem table_never_empty_after_start (t : Table) (requests : list Request) :
  1 <= count (after_start requests t).
Proof.
  unfold after_start. apply serve_all_nonempty.
  destruct (initializeDatabase_cases t) as [[_ ->] | [H ->]]; [lia | exact H].
Qed.

(** A second start changes nothing: [initializeDatabase] seeds at most
    once. *)
Theorem initializeDatabase_twice (t : Table) :
  snd (initializeDatabase t) = Resolved tt
  /\ initializeDatabase (fst (initializeDatabase t)) = (fst (initializeDatabase t), Resolved tt).
Proof.
  destruct (initializeDatabase_cases t) as [[H0 H3] | [H Heq]].
  - split.
    + rewrite (table_empty t H0), initializeDatabase_empty. reflexivity.
    + destruct (initializeDatabase_cases (fst (initializeDatabase t))) as [[H _] | [_ H]];
        [lia | exact H].
  - rewrite Heq. cbn [fst snd]. split; [reflexivity | exact Heq].
Qed.

(** Every response carries one of the statuses 200, 201, 400, 404, 500, and
    a request that is not answered with a 2xx status leaves every row of the
    table as it was. *)
Theorem refused_request_leaves_rows (r : Request) (t : Table) :
  known_status (status (snd (serve r t)))
  /\ (ok (snd (serve r t)) = false -> rows (fst (serve r t)) = rows t).
Proof.
  unfold ok, known_status.
  destruct (serve_cases r t) as
    [(_ & _ & Hk & H) | [(Hs & H) | [(Hs & _) | [(Hs & _) | (Hs & _)]]]].
  - split; [exact Hk | intros _; exact H].
  - split; [tauto | intros _; rewrite H; reflexivity].
  - rewrite Hs. split; [tauto | discriminate].
  - rewrite Hs. split; [tauto | discriminate].
  - rewrite Hs. split; [tauto | discriminate].
Qed.


(** The data model's invariant is kept by the server for the bodies of
    [Body]: if every row has a prompt that is not empty, four options and a
    correct answer among 0..3, then so has every row after start-up and any
    requests, served one at a time, whose [correctAnswer] is a JSON number or
    is missing and whose [options] is an array of strings or no array.  (A
    [correctAnswer] sent as a string is compared as the number that
    JavaScript reads in it and stored as the integer that the database reads
    in it, which need not agree; such bodies are not values of [Body].) *)
Theorem rows_stay_well_formed (t : Table) (requests : list Request) :
  rows_ok t -> rows_ok (after_start requests t).
Proof.
  intros H. unfold after_start.
  apply rows_ok_serve_all, rows_ok_initializeDatabase, H.
Qed.

Lemma rows_stay_well_formed_witness :
  rows_ok created_table
  /\ rows_ok (after_start
       [POST_question Scenario.body_with_answer;
        POST_question Scenario.body_without_answer;
        PUT_question (IdInteger 2) Scenario.body_with_fraction;
        DELETE_question (IdInteger 1)] created_table).
Proof.
  assert (rows_ok created_table) as H.
  { intros k r Hk. cbn in Hk. rewrite lookup_empty in Hk. discriminate. }
  split; [exact H |]. apply (rows_stay_well_formed created_table _ H).
Defined.

(** Ids are not reused.  While the sequence is ahead of the keys it stays
    ahead and never goes back, and an id below the sequence that is not in
    use (never given out, or deleted) is not in use after any further
    requests. *)
Theorem ids_never_reused (t : Table) (requests : list Request) (k : Z) :
  sequence_ahead t ->
  sequence_ahead (serve_all requests t)
  /\ questions_id_seq t <= questions_id_seq (serve_all requests t)
  /\ (k < questions_id_seq t -> rows t !! k = None ->
        rows (serve_all requests t) !! k = None).
Proof.
  intros H. split; [apply sequence_ahead_serve_all, H |].
  destruct (keys_serve_all requests t) as [Hseq Hkeys]. split; [exact Hseq |].
  intros Hk Hnone. destruct (rows (serve_all requests t) !! k) as [r' |] eqn:E; [| reflexivity].
  destruct (Hkeys k) as [[r Hr] | Hge]; [rewrite E; eauto | congruence | lia].
Qed.

Lemma ids_never_reused_witness :
  sequence_ahead Scenario.last_row
  /\ rows (serve_all [POST_question Scenario.body_with_answer;
                      POST_question Scenario.body_with_answer] Scenario.last_row) !! 3
     = None.
Proof.
  assert (sequence_ahead Scenario.last_row) as H.
  { unfold Scenario.last_row.
    apply (ServerProps.sequence_ahead_serve (DELETE_question (IdInteger 3))).
    apply (ServerProps.sequence_ahead_serve (DELETE_question (IdInteger 2))).
    apply ServerProps.sequence_ahead_initializeDatabase, ServerProps.sequence_ahead_created. }
  split; [exact H |].
  apply (ids_never_reused Scenario.last_row _ 3 H); vm_compute; reflexivity.
Defined.

(** List answers 200 with the questions in strictly increasing order of id,
    one entry for each row of the table and no other. *)
Theorem list_is_the_table_in_id_order (t : Table) :
  getQuestions t = mkResponse 200 (JsonQuestions (select_questions t))
  /\ StronglySorted (fun a b => id a < id b) (select_questions t)
  /\ (forall q, q ∈ select_questions t <->
        exists r, rows t !! id q = Some r /\ q = select_columns (id q) r)
  /\ Z.of_nat (length (select_questions t)) = count t.
Proof.
  split; [reflexivity |]. split; [| split].
  - apply sorted_distinct_strict; [| apply select_questions_ids].
    apply Sorted_StronglySorted; [apply _ | apply ServerProps.select_questions_sorted].
  - apply ServerProps.elem_of_select_questions.
  - apply ServerProps.length_select_questions.
Qed.

(** Get by id agrees with List: it answers 200 with a question exactly when
    that question is in the list under that id, and 404 exactly when the id
    is within the range of INTEGER and the list has no entry with that id; an
    id beyond that range, which no entry has, is answered 500. *)
Theorem get_agrees_with_list (t : Table) (k : Z) :
  (forall q, getQuestionById (IdInteger k) t = mkResponse 200 (JsonQuestion q) <->
     q ∈ select_questions t /\ id q = k)
  /\ (getQuestionById (IdInteger k) t = question_not_found <->
        in_int4 k = true /\ forall q, q ∈ select_questions t -> id q <> k)
  /\ (getQuestionById (IdInteger k) t = internal_server_error <->
        in_int4 k = false /\ forall q, q ∈ select_questions t -> id q <> k).
Proof.
  unfold getQuestionById, select_question, res_json, question_not_found,
    internal_server_error.
  assert ((forall q, q ∈ select_questions t -> id q <> k) <-> rows t !! k = None) as Habsent.
  { split.
    - intros H. destruct (rows t !! k) as [r |] eqn:E; [| reflexivity].
      exfalso. apply (H (select_columns k r)); [| reflexivity].
      apply ServerProps.elem_of_select_questions. exists r. split; [exact E | reflexivity].
    - intros E q Hq <-. apply ServerProps.elem_of_select_questions in Hq as (r & Hr & _).
      congruence. }
  split; [| split].
  - intros q. rewrite ServerProps.elem_of_select_questions. split.
    + destruct (rows t !! k) as [r |] eqn:E; [| destruct (in_int4 k); discriminate].
      intros [= <-]. cbn. split; [| reflexivity]. exists r. split; [exact E | reflexivity].
    + intros [(r & Hr & Hq) <-]. rewrite Hr, <- Hq. reflexivity.
  - rewrite Habsent. destruct (rows t !! k) as [r |].
    + split; [discriminate | intros [_ H]; discriminate H].
    + destruct (in_int4 k); split; try discriminate; auto. intros [H _]. discriminate H.
  - rewrite Habsent. destruct (rows t !! k) as [r |].
    + split; [discriminate | intros [_ H]; discriminate H].
    + destruct (in_int4 k); split; try discriminate; auto. intros [H _]. discriminate H.
Qed.

(** A Create that is answered 201 adds exactly one row, under the key the
    sequence held, which was free; the answer carries that row; every row
    that was there is still there, unchanged; the count goes up by one and
    the sequence by one. *)
Theorem created_row_is_the_only_change (b : Body) (t : Table) :
  status (snd (createQuestion b t)) = 201 ->
  let k := questions_id_seq t in
  let t' := fst (createQuestion b t) in
  rows t !! k = None
  /\ (exists row, rows t' !! k = Some row
        /\ snd (createQuestion b t) = mkResponse 201 (JsonQuestion (select_columns k row)))
  /\ (forall j, j <> k -> rows t' !! j = rows t !! j)
  /\ count t' = count t + 1
  /\ questions_id_seq t' = k + 1.
Proof.
  intros Hs k t'. subst k t'.
  change (createQuestion b t) with (serve (POST_question b) t) in *.
  destruct (serve_cases (POST_question b) t) as
    [(_ & Hn & _) | [(H2 & _) | [(_ & b' & row & _ & _ & _ & _ & _ & Hk & E & Hj)
      | [(H2 & _) | (H2 & _)]]]]; try congruence.
  split; [exact Hk |]. rewrite E. cbn [rows questions_id_seq]. split; [| split; [| split]].
  - exists row. rewrite lookup_insert_eq. split; [reflexivity |].
    destruct (snd (serve (POST_question b) t)) as [s j]. cbn in *. congruence.
  - intros j Hne. apply lookup_insert_ne. congruence.
  - unfold count. cbn [rows]. rewrite map_size_insert_None by exact Hk. lia.
  - reflexivity.
Qed.

Lemma created_row_is_the_only_change_witness :
  status (snd (createQuestion Scenario.body_with_answer Scenario.seeded)) = 201
  /\ count (fst (createQuestion Scenario.body_with_answer Scenario.seeded)) = 3 + 1.
Proof.
  assert (status (snd (createQuestion Scenario.body_with_answer Scenario.seeded)) = 201) as H
    by (vm_compute; reflexivity).
  split; [exact H |].
  apply (created_row_is_the_only_change Scenario.body_with_answer Scenario.seeded H).
Defined.

(** Update never adds or removes a row: whatever the id and the body, the
    ids in use and the sequence are the same afterwards; and with a valid
    payload that the database takes, on an id within the range of INTEGER
    that is not in use, it answers 404 and changes nothing. *)
Theorem update_keeps_the_ids (i : IdParam) (b : Body) (t : Table) :
  dom (rows (fst (updateQuestion i b t))) = dom (rows t)
  /\ questions_id_seq (fst (updateQuestion i b t)) = questions_id_seq t
  /\ (forall k row, i = IdInteger k -> in_int4 k = true ->
        valid_payload b row -> texts_accepted row -> rows t !! k = None ->
        updateQuestion i b t = (t, question_not_found)).
Proof.
  split; [| split].
  - change (updateQuestion i b t) with (serve (PUT_question i b) t).
    destruct (serve_cases (PUT_question i b) t) as
      [(_ & _ & _ & E) | [(_ & E) | [(_ & b' & row & Hr & _)
        | [(_ & k & b' & row & _ & _ & _ & _ & _ & Hk & E)
        | (_ & k & Hr & _)]]]]; try discriminate Hr; rewrite E; try reflexivity.
    cbn [rows]. apply dom_insert_lookup_L, Hk.
  - unfold updateQuestion, update_question.
    destruct (_ || _); [reflexivity |]. destruct (_ || _); [reflexivity |].
    destruct (bind_integer _) as [| c], i as [k |]; try reflexivity.
    destruct (refused_text _ _ _); [reflexivity |].
    destruct (rows t !! k); [| destruct (in_int4 k); reflexivity].
    destruct (not_null_row _ _ _ _); reflexivity.
  - intros k row -> Hint Hvalid Htexts Hk.
    pose proof (ServerProps.valid_payload_accepted b row Hvalid Htexts) as Haccepted.
    destruct (ServerProps.valid_payload_passes b row Hvalid) as (H1 & H2 & H3).
    unfold updateQuestion, update_question. rewrite H1, H2, H3, Haccepted, Hk, Hint.
    reflexivity.
Qed.

(** After a Delete that succeeded the id is gone for Get (404) and for List,
    a second Delete of it is refused (404, or 400 when one row is left), and
    every other question is returned by Get as before.  The keys of the table
    are within INTEGER; for a key that were not, Get and the second Delete
    would fail with 500 instead of 404. *)
Theorem deleted_question_is_gone (t : Table) (k : Z) :
  2 <= count t -> is_Some (rows t !! k) ->
  let t' := fst (deleteQuestion (IdInteger k) t) in
  getQuestionById (IdInteger k) t'
  = (if in_int4 k then question_not_found else internal_server_error)
  /\ (forall q, q ∈ select_questions t' -> id q <> k)
  /\ status (snd (deleteQuestion (IdInteger k) t'))
     = (if count t' <=? 1 then 400 else if in_int4 k then 404 else 500)
  /\ fst (deleteQuestion (IdInteger k) t') = t'
  /\ (forall j, j <> k -> getQuestionById (IdInteger j) t' = getQuestionById (IdInteger j) t).
Proof.
  intros Hc [r Hr] t'. subst t'.
  assert (fst (deleteQuestion (IdInteger k) t)
          = mkTable (delete k (rows t)) (questions_id_seq t)) as ->.
  { unfold deleteQuestion, delete_question.
    destruct (Z.leb_spec (count t) 1); [lia |]. rewrite Hr. reflexivity. }
  split; [| split; [| split; [| split]]].
  - unfold getQuestionById, select_question. cbn [rows]. rewrite lookup_delete_eq.
    destruct (in_int4 k); reflexivity.
  - intros q Hq <-. apply ServerProps.elem_of_select_questions in Hq as (r' & Hr' & _).
    cbn [rows] in Hr'. rewrite lookup_delete_eq in Hr'. discriminate.
  - rewrite ServerProps.deleteQuestion_status. cbn [rows]. rewrite lookup_delete_eq.
    reflexivity.
  - unfold deleteQuestion, delete_question. cbn [rows]. rewrite lookup_delete_eq.
    destruct (_ <=? 1); [reflexivity |]. destruct (in_int4 k); reflexivity.
  - intros j Hj. unfold getQuestionById, select_question. cbn [rows].
    rewrite lookup_delete_ne by congruence. reflexivity.
Qed.

Lemma deleted_question_is_gone_witness :
  2 <= count Scenario.seeded
  /\ is_Some (rows Scenario.seeded !! 2)
  /\ getQuestionById (IdInteger 2) (fst (deleteQuestion (IdInteger 2) Scenario.seeded))
     = question_not_found.
Proof.
  assert (2 <= count Scenario.seeded) as Hc by (vm_compute; discriminate).
  assert (is_Some (rows Scenario.seeded !! 2)) as Hk by (vm_compute; eauto).
  split; [exact Hc |]. split; [exact Hk |].
  apply (deleted_question_is_gone Scenario.seeded 2 Hc Hk).
Defined.




(** ** Deletes that overlap *)

(** The handler is its second half run on the count of the table that it
    finds, when no other handler comes in between. *)
Lemma deleteQuestion_after_count (i : IdParam) (t : Table) :
  deleteQuestion i t = delete_after_count (count t) i t.
Proof. reflexivity. Qed.

(** The guard on the last row is a count followed by a DELETE, and it does
    not hold when two Deletes overlap.  On a table of exactly two rows, two
    Delete requests for the two rows, each of which has its count before the
    other's DELETE runs, are both answered 200 and leave the table empty;
    served one at a time, the first is answered 200, the second 400, and
    one row is left. *)
Theorem overlapping_deletes_empty_the_table (t : Table) (j k : Z) :
  count t = 2 ->
  j <> k ->
  is_Some (rows t !! j) ->
  is_Some (rows t !! k) ->
  let deleted := res_json (JsonMessage "Question deleted successfully") in
  overlapping_deletes (IdInteger j) (IdInteger k) t
  = (mkTable (delete k (delete j (rows t))) (questions_id_seq t), (deleted, deleted))
  /\ count (fst (overlapping_deletes (IdInteger j) (IdInteger k) t)) = 0
  /\ snd (deleteQuestion (IdInteger j) t) = deleted
  /\ status (snd (deleteQuestion (IdInteger k) (fst (deleteQuestion (IdInteger j) t)))) = 400
  /\ count (serve_all [DELETE_question (IdInteger j); DELETE_question (IdInteger k)] t) = 1.
Proof.
  intros Hcount Hjk [rj Hj] [rk Hk] deleted.
  assert (size (rows t) = 2%nat) as Hsize by (unfold count in Hcount; lia).
  assert (delete j (rows t) !! k = Some rk) as Hk' by (rewrite lookup_delete_ne by exact Hjk; exact Hk).
  assert (size (delete j (rows t)) = 1%nat) as Hsize1
    by (rewrite map_size_delete_Some by eauto; rewrite Hsize; reflexivity).
  assert (overlapping_deletes (IdInteger j) (IdInteger k) t
          = (mkTable (delete k (delete j (rows t))) (questions_id_seq t), (deleted, deleted)))
    as Hboth.
  { unfold overlapping_deletes, delete_after_count, delete_question. rewrite Hcount.
    cbn [Z.leb Z.compare Pos.compare Pos.compare_cont]. rewrite Hj. cbn [rows questions_id_seq].
    rewrite Hk'. reflexivity. }
  assert (deleteQuestion (IdInteger j) t
          = (mkTable (delete j (rows t)) (questions_id_seq t), deleted)) as Hfirst.
  { unfold deleteQuestion, delete_question. rewrite Hcount.
    cbn [Z.leb Z.compare Pos.compare Pos.compare_cont]. rewrite Hj. reflexivity. }
  assert (deleteQuestion (IdInteger k) (mkTable (delete j (rows t)) (questions_id_seq t))
          = (mkTable (delete j (rows t)) (questions_id_seq t),
             mkResponse 400 (JsonError "Cannot delete the last question"))) as Hsecond.
  { unfold deleteQuestion, count. cbn [rows]. rewrite Hsize1. reflexivity. }
  split; [exact Hboth |]. split.
  - rewrite Hboth. unfold count. cbn [fst rows].
    rewrite map_size_delete_Some by eauto. rewrite Hsize1. reflexivity.
  - split; [rewrite Hfirst; reflexivity |]. split.
    + rewrite Hfirst. cbn [fst]. rewrite Hsecond. reflexivity.
    + cbn [serve_all serve]. rewrite Hfirst. cbn [fst]. rewrite Hsecond. cbn [fst].
      unfold count. cbn [rows]. rewrite Hsize1. reflexivity.
Qed.

Lemma overlapping_deletes_empty_the_table_witness :
  count Scenario.last_two_rows = 2
  /\ count (fst (overlapping_deletes (IdInteger 1) (IdInteger 2) Scenario.last_two_rows)) = 0
  /\ count (serve_all [DELETE_question (IdInteger 1); DELETE_question (IdInteger 2)]
              Scenario.last_two_rows) = 1.
Proof.
  assert (count Scenario.last_two_rows = 2) as Hcount by (vm_compute; reflexivity).
  assert (1 <> 2) as Hne by lia.
  assert (is_Some (rows Scenario.last_two_rows !! 1)) as H1 by (vm_compute; eauto).
  assert (is_Some (rows Scenario.last_two_rows !! 2)) as H2 by (vm_compute; eauto).
  destruct (overlapping_deletes_empty_the_table Scenario.last_two_rows 1 2 Hcount Hne H1 H2)
    as (_ & Hempty & _ & _ & Hone).
  split; [exact Hcount |]. split; [exact Hempty | exact Hone].
Defined.

End ServerMore.

(** * More properties of the client *)

Module ClientMore.

Import Server Client Editing.

Local Arguments at_index : simpl never.
Local Arguments len : simpl never.

(** ** Playing *)

Lemma run_app events1 events2 st :
  run (events1 ++ events2) st =
    match run events1 st with
    | Some st' => run events2 st'
    | None => None
    end.
Proof.
  revert st. induction events1 as [| e events1 IH]; intros st; cbn [run app]; [reflexivity |].
  destruct (step e st); [apply IH | reflexivity].
Qed.

Lemma render_playing_cases qs i sel s shown completed :
  render (playing qs i sel s shown completed) =
    if completed then CompletionScreen
    else match at_index qs i with
         | Some q => QuizScreen q
         | None => RenderThrows
         end.
Proof. reflexivity. Qed.

(** A click during play leads from a state of play with a valid index to
    another one, on the same questions. *)
Lemma step_playing e qs i sel s shown completed st' :
  0 <= i < len qs ->
  step e (playing qs i sel s shown completed) = Some st' ->
  exists i' sel' s' shown' completed',
    st' = playing qs i' sel' s' shown' completed' /\ 0 <= i' < len qs.
Proof.
  intros Hi. unfold step. rewrite render_playing_cases.
  destruct completed.
  - destruct e; try discriminate. intros [= <-].
    exists 0, None, 0, false, false. split; [reflexivity | lia].
  - destruct (at_index qs i) as [q |] eqn:Hq; [| discriminate].
    destruct e as [a | | |]; try discriminate.
    + destruct (_ && _); [| discriminate]. intros [= <-].
      exists i, (Some a), s, shown, false. split; [reflexivity | exact Hi].
    + destruct (_ && _); [| discriminate]. intros [= <-].
      unfold handleSubmit. cbn [playing selectedAnswer quizQuestions currentQuestion].
      destruct sel as [a |]; [| exists i, None, s, shown, false; split; [reflexivity | exact Hi]].
      rewrite Hq. destruct (a =? correctAnswer q).
      * exists i, (Some a), (s + 1), true, false. split; [reflexivity | exact Hi].
      * exists i, (Some a), s, true, false. split; [reflexivity | exact Hi].
    + cbn [playing showResult]. destruct shown; [| discriminate]. intros [= <-].
      unfold handleNext. cbn [playing quizQuestions currentQuestion].
      destruct (Z.ltb_spec i (len qs - 1)).
      * exists (i + 1), None, s, false, false. split; [reflexivity | lia].
      * exists i, sel, s, true, true. split; [reflexivity | exact Hi].
Qed.

Lemma run_playing events : forall qs i sel s shown completed st',
  0 <= i < len qs ->
  run events (playing qs i sel s shown completed) = Some st' ->
  exists i' sel' s' shown' completed',
    st' = playing qs i' sel' s' shown' completed' /\ 0 <= i' < len qs.
Proof.
  induction events as [| e events IH]; intros qs i sel s shown completed st' Hi Hrun;
    cbn [run] in Hrun.
  - injection Hrun as <-. eauto 10.
  - destruct (step e _) as [st1 |] eqn:Hstep; [| discriminate].
    destruct (step_playing _ _ _ _ _ _ _ _ Hi Hstep) as (i1 & sel1 & s1 & sh1 & c1 & -> & Hi1).
    eapply IH; eassumption.
Qed.

Lemma at_index_valid qs i : 0 <= i < len qs -> exists q, at_index qs i = Some q.
Proof.
  intros Hi. unfold at_index, len in *. destruct (Z.ltb_spec i 0); [lia |].
  apply lookup_lt_is_Some. lia.
Qed.

(** The screen does not depend on the selection, the score and the result
    flag. *)
Lemma render_setShowResult v st : render (setShowResult v st) = render st.
Proof. reflexivity. Qed.
Lemma render_setScore v st : render (setScore v st) = render st.
Proof. reflexivity. Qed.
Lemma render_setSelectedAnswer v st : render (setSelectedAnswer v st) = render st.
Proof. reflexivity. Qed.


(** ** The form *)

Lemma render_EditForm st d :
  render st = EditForm d -> editingQuestion st = Some d /\ editMode st = true.
Proof.
  unfold render. destruct (loading st); [discriminate |].
  destruct (_ && _); [discriminate |].
  destruct (editMode st), (editingQuestion st) as [d' |], (quizCompleted st);
    try discriminate; try (destruct (at_index _ _); discriminate);
    intros [= ->]; split; reflexivity.
Qed.

(** An edit replaces the draft by one with the same id, the same number of
    options and a correct answer that is a position of the options or the one
    of before; it writes no other cell. *)
Lemma edit_step_draft e st st' d :
  editingQuestion st = Some d -> edit_step e st = Some st' ->
  exists d', st' = setEditingQuestion (Some d') st
    /\ id d' = id d
    /\ length (options d') = length (options d)
    /\ (correctAnswer d' = correctAnswer d
        \/ 0 <= correctAnswer d' < Z.of_nat (length (options d))).
Proof.
  intros Hd. unfold edit_step. destruct (render st) as [| | draft | | |] eqn:Hr; try discriminate.
  apply render_EditForm in Hr as [Hdraft _]. rewrite Hd in Hdraft. injection Hdraft as <-.
  destruct e as [v | v | i v | i].
  - intros [= <-]. unfold handleQuestionChange. rewrite Hd.
    eexists. split; [reflexivity |]. cbn. auto.
  - intros [= <-]. unfold handleExplanationChange. rewrite Hd.
    eexists. split; [reflexivity |]. cbn. auto.
  - unfold handleOptionChange. rewrite Hd. destruct (decide _); [| discriminate].
    intros [= <-]. eexists. split; [reflexivity |]. cbn. rewrite length_insert. auto.
  - destruct (decide _) as [Hi |]; [| discriminate]. intros [= <-].
    unfold handleCorrectAnswerChange. rewrite Hd.
    eexists. split; [reflexivity |]. cbn. repeat split. right. lia.
Qed.

Lemma edit_all_draft edits : forall st st' d,
  editingQuestion st = Some d -> edit_all edits st = Some st' ->
  exists d', st' = setEditingQuestion (Some d') st
    /\ id d' = id d
    /\ length (options d') = length (options d)
    /\ (correctAnswer d' = correctAnswer d
        \/ 0 <= correctAnswer d' < Z.of_nat (length (options d))).
Proof.
  induction edits as [| e edits IH]; intros st st' d Hd Hrun; cbn [edit_all] in Hrun.
  - injection Hrun as <-. exists d. split; [| auto].
    destruct st; cbn in *; subst; reflexivity.
  - destruct (edit_step e st) as [st1 |] eqn:Hstep; [| discriminate].
    destruct (edit_step_draft e st st1 d Hd Hstep) as (d1 & -> & Hid1 & Hlen1 & Hc1).
    destruct (IH (setEditingQuestion (Some d1) st) st' d1 eq_refl Hrun)
      as (d' & -> & Hid & Hlen & Hc).
    exists d'. split; [reflexivity |]. split; [congruence |]. split; [congruence |].
    rewrite Hlen1 in Hc. destruct Hc as [Hc | Hc]; [rewrite Hc; exact Hc1 | right; exact Hc].
Qed.

(** ** Client and server in step *)

Lemma in_sync_len t st : in_sync t st -> len (quizQuestions st) = count t.
Proof. unfold in_sync, len. intros ->. apply ServerProps.length_select_questions. Qed.

Lemma select_questions_rows t t' : rows t' = rows t -> select_questions t' = select_questions t.
Proof. unfold select_questions. intros ->. reflexivity. Qed.

(** ** Extras *)

(** With at least one question loaded, no sequence of clicks on option,
    submit, next and restart buttons leaves the quiz without a question to
    show: the questions stay the loaded ones, the current index stays a
    position of the list, and the screen is the completion screen or the quiz
    screen of the question at that index. *)
Theorem question_exists_during_play (qs : list Question) (events : list Event) (st : State) :
  qs <> [] ->
  run events (ready qs) = Some st ->
  quizQuestions st = qs
  /\ index_valid st
  /\ exists q, at_index qs (currentQuestion st) = Some q
       /\ (render st = QuizScreen q \/ render st = CompletionScreen).
Proof.
  intros Hne Hrun. rewrite ClientProps.ready_playing in Hrun.
  assert (0 <= 0 < len qs) as H0.
  { destruct qs; [congruence |]. unfold len. cbn. lia. }
  destruct (run_playing _ _ _ _ _ _ _ _ H0 Hrun) as (i & sel & s & sh & c & -> & Hi).
  split; [reflexivity |]. split; [exact Hi |].
  destruct (at_index_valid qs i Hi) as [q Hq]. exists q. split; [exact Hq |].
  rewrite render_playing_cases. cbn [playing currentQuestion] in *. rewrite Hq.
  destruct c; auto.
Qed.

Lemma question_exists_during_play_witness :
  Scenario.seeded_questions <> []
  /\ exists st,
       run [Select 0; Select 3; Submit; Next; Select 1] (ready Scenario.seeded_questions)
       = Some st
       /\ index_valid st.
Proof.
  assert (Scenario.seeded_questions <> []) as Hne
    by (rewrite ServerProps.seeded_questions_listed; discriminate).
  split; [exact Hne |].
  destruct (run [Select 0; Select 3; Submit; Next; Select 1]
              (ready Scenario.seeded_questions)) as [st |] eqn:Hrun.
  - exists st. split; [reflexivity |].
    apply (question_exists_during_play Scenario.seeded_questions _ st Hne Hrun).
  - vm_compute in Hrun. discriminate Hrun.
Defined.

(** A question is scored once.  After a click on submit went through, the
    result shows, the submit button and the option buttons accept no click,
    and the next button does. *)
Theorem submitted_question_is_locked (st st' : State) :
  step Submit st = Some st' ->
  showResult st' = true
  /\ step Submit st' = None
  /\ (forall optionIndex, step (Select optionIndex) st' = None)
  /\ step Next st' = Some (handleNext st')
  /\ currentQuestion st' = currentQuestion st.
Proof.
  unfold step at 1. destruct (render st) as [| | d | | q |] eqn:Hrender; try discriminate.
  destruct (showResult st) eqn:Hshown; [discriminate |]. cbn [negb andb].
  apply ClientProps.render_QuizScreen in Hrender as Hq. destruct Hq as [Hq _].
  unfold handleSubmit. destruct (selectedAnswer st) as [a |] eqn:Hsel.
  - rewrite bool_decide_eq_true_2 by eauto. rewrite Hq. intros [= <-]. unfold step.
    destruct (a =? correctAnswer q);
      rewrite ?render_setShowResult, ?render_setScore, Hrender; cbn; repeat split.
  - rewrite bool_decide_eq_false_2 by (intros [x Hx]; discriminate Hx). discriminate.
Qed.

Lemma submitted_question_is_locked_witness :
  step Submit Cases.selected_first = Some Cases.submitted_first
  /\ step Submit Cases.submitted_first = None.
Proof.
  assert (step Submit Cases.selected_first = Some Cases.submitted_first) as Hstep
    by (vm_compute; reflexivity).
  split; [exact Hstep |].
  apply (submitted_question_is_locked Cases.selected_first Cases.submitted_first Hstep).
Defined.


(** Restart after a run gives the ready state back: whatever was answered,
    a run followed by a click on restart behaves in everything that follows
    like a fresh start on the same questions. *)
Theorem restart_returns_to_ready (qs : list Question) (sels : list Z) (events : list Event) :
  qs <> [] ->
  Forall2 selectable qs sels ->
  run (quiz_run sels ++ Restart :: events) (ready qs) = run events (ready qs).
Proof.
  intros Hne Hsel. rewrite run_app, ClientProps.ready_playing.
  destruct (ClientProps.run_quiz_run qs sels [] None 0 Hne Hsel) as [sel' Hrun].
  cbn [app] in Hrun. change (len []) with 0 in Hrun.
  rewrite Hrun. reflexivity.
Qed.

Lemma restart_returns_to_ready_witness :
  run (quiz_run [0; 1; 1] ++ [Restart]) (ready Scenario.seeded_questions)
  = Some (ready Scenario.seeded_questions).
Proof.
  apply (restart_returns_to_ready Scenario.seeded_questions [0; 1; 1] []).
  - rewrite ServerProps.seeded_questions_listed. discriminate.
  - apply ClientProps.seeded_selectable; [repeat constructor; lia | reflexivity].
Defined.

(** A selection replaces the one before it: once an option was clicked, a
    click on another option leads to the same state, and so to the same
    score, as if the first click had not happened. *)
Theorem last_selection_counts (st st1 : State) (a b : Z) (events : list Event) :
  step (Select a) st = Some st1 ->
  run (Select b :: events) st1 = run (Select b :: events) st.
Proof.
  unfold step at 1. destruct (render st) as [| | d | | q |] eqn:Hrender; try discriminate.
  destruct (_ && _); [| discriminate]. intros [= <-]. cbn [run].
  assert (step (Select b) (handleAnswerSelect a st) = step (Select b) st) as ->; [| reflexivity].
  unfold step, handleAnswerSelect. rewrite render_setSelectedAnswer, Hrender. reflexivity.
Qed.

Lemma last_selection_counts_witness :
  score <$> run (Select 0 :: Select 2 :: [Submit]) (ready Scenario.seeded_questions)
  = Some 1.
Proof.
  destruct (step (Select 0) (ready Scenario.seeded_questions)) as [st1 |] eqn:Hstep.
  - assert (run (Select 0 :: Select 2 :: [Submit]) (ready Scenario.seeded_questions)
            = run (Select 2 :: [Submit]) st1) as ->
      by (cbn [run]; rewrite Hstep; reflexivity).
    rewrite (last_selection_counts (ready Scenario.seeded_questions) st1 0 2 [Submit] Hstep).
    vm_compute. reflexivity.
  - vm_compute in Hstep. discriminate Hstep.
Defined.

(** The form cannot spoil a draft.  Whatever is typed and picked, the draft
    keeps its id, its four options and a correct answer among 0..3, and no
    cell of the quiz (questions, index, selection, score, result and
    completion flags) changes; so the server's validation accepts the body of
    Save exactly when the prompt is not empty. *)
Theorem form_keeps_draft_well_formed (st st' : State) (d : Question) (edits : list Edit) :
  editingQuestion st = Some d ->
  draft_ok d ->
  edit_all edits st = Some st' ->
  exists d',
    editingQuestion st' = Some d'
    /\ id d' = id d
    /\ draft_ok d'
    /\ play_cells st' = play_cells st
    /\ (validation_passes (save_body d') = true <-> question d' <> "").
Proof.
  intros Hd [Hlen Hc] Hrun.
  destruct (edit_all_draft edits st st' d Hd Hrun) as (d' & -> & Hid & Hlen' & Hc').
  exists d'. split; [reflexivity |]. split; [exact Hid |].
  assert (draft_ok d') as Hok.
  { unfold draft_ok. split; [congruence |]. rewrite Hlen in Hc'. destruct Hc'; lia. }
  split; [exact Hok |]. split; [reflexivity |]. split.
  - unfold validation_passes, save_body. cbn [body_question]. intros Hv E.
    rewrite E in Hv. discriminate Hv.
  - intros Hq. destruct Hok. apply ServerProps.save_body_passes; assumption.
Qed.

Lemma form_keeps_draft_well_formed_witness :
  exists st',
    edit_all [TypeQuestion "Which river is the longest?"; TypeOption 1 "Nile";
              PickCorrectAnswer 1; TypeExplanation ""]
      (handleAddQuestion (ready Scenario.seeded_questions)) = Some st'
    /\ exists d', editingQuestion st' = Some d' /\ draft_ok d'.
Proof.
  destruct (edit_all [TypeQuestion "Which river is the longest?"; TypeOption 1 "Nile";
                      PickCorrectAnswer 1; TypeExplanation ""]
              (handleAddQuestion (ready Scenario.seeded_questions))) as [st' |] eqn:Hrun.
  - exists st'. split; [reflexivity |].
    destruct (form_keeps_draft_well_formed
                (handleAddQuestion (ready Scenario.seeded_questions)) st'
                Scenario.fourth_draft _ eq_refl
                ltac:(unfold draft_ok; cbn; split; [reflexivity | lia]) Hrun)
      as (d' & Hd' & _ & Hok & _).
    exists d'. split; [exact Hd' | exact Hok].
  - vm_compute in Hrun. discriminate Hrun.
Defined.

(** Cancel discards the draft: after opening the form on a question or on a
    new draft and editing at will, Cancel gives back the state of before the
    form was opened, with the error cleared. *)
Theorem cancel_discards_the_draft (st opened st' : State) (q : Question) (edits : list Edit) :
  editMode st = false ->
  editingQuestion st = None ->
  opened = handleEditQuestion q st \/ opened = handleAddQuestion st ->
  edit_all edits opened = Some st' ->
  handleCancelEdit st' = setError None st.
Proof.
  intros Hmode Hnone Hopened Hrun.
  assert (exists d, editingQuestion opened = Some d /\ handleCancelEdit opened = setError None st)
    as (d & Hd & Hcancel).
  { destruct Hopened as [-> | ->]; eexists; (split; [reflexivity |]);
      destruct st; cbn in *; subst; reflexivity. }
  destruct (edit_all_draft edits opened st' d Hd Hrun) as (d' & -> & _).
  exact Hcancel.
Qed.

Lemma cancel_discards_the_draft_witness :
  exists st',
    edit_all [TypeQuestion "?"; PickCorrectAnswer 3]
      (handleAddQuestion (ready Scenario.seeded_questions)) = Some st'
    /\ handleCancelEdit st' = ready Scenario.seeded_questions.
Proof.
  destruct (edit_all [TypeQuestion "?"; PickCorrectAnswer 3]
              (handleAddQuestion (ready Scenario.seeded_questions))) as [st' |] eqn:Hrun.
  - exists st'. split; [reflexivity |].
    apply (cancel_discards_the_draft (ready Scenario.seeded_questions) _ st'
             Scenario.fourth_draft _ eq_refl eq_refl (or_intror eq_refl) Hrun).
  - vm_compute in Hrun. discriminate Hrun.
Defined.

(** A loaded question is saved by Update on its own id, however it was
    edited, and the form offers Delete for it; Save never issues Create for
    it. *)
Theorem loaded_question_saves_by_update (st st' : State) (q : Question) (edits : list Edit) :
  q ∈ quizQuestions st ->
  edit_all edits (handleEditQuestion q st) = Some st' ->
  exists d',
    editingQuestion st' = Some d'
    /\ save_request st' = Some (PUT_question (IdInteger (id q)) (save_body d'))
    /\ delete_offered d' (quizQuestions st') = true.
Proof.
  intros Hq Hrun.
  destruct (edit_all_draft edits (handleEditQuestion q st) st' q eq_refl Hrun)
    as (d' & -> & Hid & _).
  exists d'. split; [reflexivity |].
  unfold save_request, delete_offered, exceeds_max.
  cbn [editingQuestion quizQuestions setEditingQuestion handleEditQuestion setEditMode].
  destruct (Math_max (quizQuestions st)) as [m |] eqn:Hmax.
  - destruct (ClientProps.Math_max_Some _ _ Hmax) as [Hall _].
    rewrite Forall_forall in Hall. specialize (Hall q Hq). rewrite Hid.
    destruct (Z.ltb_spec m (id q)); [lia |]. split; [reflexivity |]. apply Z.leb_le. lia.
  - apply ClientProps.Math_max_None in Hmax. rewrite Hmax in Hq. inversion Hq.
Qed.

Lemma loaded_question_saves_by_update_witness :
  Cases.first_seeded ∈ quizQuestions Cases.playing_seeded
  /\ exists st' d',
       edit_all [TypeOption 0 "Lyon"] (handleEditQuestion Cases.first_seeded Cases.playing_seeded)
       = Some st'
       /\ save_request st' = Some (PUT_question (IdInteger 1) (save_body d')).
Proof.
  assert (Cases.first_seeded ∈ quizQuestions Cases.playing_seeded) as Hq.
  { unfold Cases.playing_seeded. cbn [quizQuestions ready fetchQuestions setLoading
      setError setQuizQuestions initialState].
    rewrite ServerProps.seeded_questions_listed. left. }
  split; [exact Hq |].
  destruct (edit_all [TypeOption 0 "Lyon"]
              (handleEditQuestion Cases.first_seeded Cases.playing_seeded)) as [st' |] eqn:Hrun.
  - destruct (loaded_question_saves_by_update Cases.playing_seeded st' Cases.first_seeded
                [TypeOption 0 "Lyon"] Hq Hrun) as (d' & _ & Hsave & _).
    exists st', d'. split; [reflexivity | exact Hsave].
  - vm_compute in Hrun. discriminate Hrun.
Defined.


(** Save keeps client and server in step.  If the client holds the list
    that the server would send and the current index is a position of it,
    then after a click on Save, served by the server, both still hold,
    whatever the draft and whatever the server answers; index and score are
    untouched. *)
Theorem save_keeps_list_and_index (t : Table) (st : State) :
  in_sync t st ->
  index_valid st ->
  in_sync (fst (save_on t st)) (snd (save_on t st))
  /\ index_valid (snd (save_on t st))
  /\ currentQuestion (snd (save_on t st)) = currentQuestion st
  /\ score (snd (save_on t st)) = score st.
Proof.
  intros Hsync Hindex. unfold save_on, save_request.
  destruct (editingQuestion st) as [d |] eqn:Hd; [| cbn; auto].
  set (r := if exceeds_max d (quizQuestions st) then _ else _).
  assert ((exists b, r = POST_question b) \/ (exists i b, r = PUT_question i b)) as Hr.
  { subst r. destruct (exceeds_max _ _); eauto. }
  pose proof (ServerMore.serve_cases r t) as Hcases. cbv zeta in Hcases.
  destruct (serve r t) as [t' response]. cbn [fst snd] in *.
  unfold handleSaveQuestion, reply_of, questions_of, getQuestions, res_json, ok.
  rewrite Hd. cbn [serve snd json status].
  assert (rows t' = rows t \/
          ((status response = 200 \/ status response = 201) /\ count t <= count t')) as Hres.
  { destruct Hcases as
      [(_ & _ & _ & E) | [(_ & E) | [(Hs & b & row & _ & _ & _ & _ & _ & Hk & E & _)
        | [(Hs & k & b & row & _ & _ & _ & _ & _ & Hk & E)
        | (_ & k & E & _)]]]].
    - left. exact E.
    - left. rewrite E. reflexivity.
    - right. split; [auto |]. rewrite E. unfold count. cbn [rows].
      rewrite map_size_insert_None by exact Hk. lia.
    - right. split; [auto |]. rewrite E. unfold count. cbn [rows].
      rewrite map_size_insert_Some by exact Hk. lia.
    - destruct Hr as [[b Hb] | (i & b & Hb)]; rewrite Hb in E; discriminate E. }
  unfold in_sync, index_valid in *.
  destruct ((200 <=? status response) && (status response <=? 299)) eqn:Hok.
  - cbn. split; [reflexivity |]. split; [| auto].
    rewrite Hsync in Hindex. unfold len in *.
    rewrite ServerProps.length_select_questions in *.
    destruct Hres as [E | [_ Hcount]]; [| lia].
    unfold count in *. rewrite E. exact Hindex.
  - cbn. destruct Hres as [E | [[Hs | Hs] _]]; [| rewrite Hs in Hok; discriminate Hok ..].
    split; [rewrite Hsync; symmetry; apply select_questions_rows, E | auto].
Qed.

Lemma save_keeps_list_and_index_witness :
  in_sync Scenario.seeded (handleAddQuestion Cases.at_third)
  /\ index_valid (handleAddQuestion Cases.at_third)
  /\ index_valid (snd (save_on Scenario.seeded (handleAddQuestion Cases.at_third))).
Proof.
  assert (in_sync Scenario.seeded (handleAddQuestion Cases.at_third)) as Hsync by reflexivity.
  assert (index_valid (handleAddQuestion Cases.at_third)) as Hindex
    by (unfold index_valid; vm_compute; split; [discriminate | reflexivity]).
  split; [exact Hsync |]. split; [exact Hindex |].
  apply (save_keeps_list_and_index Scenario.seeded _ Hsync Hindex).
Defined.

(** Delete keeps client and server in step as well.  With the client's list
    the server's and a valid index, a click on Delete sends nothing when one
    question is left; otherwise, whatever the server answers, the client
    again holds the server's list and a valid index afterwards; and when the
    id is in the table, its row is removed and the form is closed. *)
Theorem delete_keeps_list_and_index (t : Table) (k : Z) (st : State) :
  in_sync t st ->
  index_valid st ->
  in_sync (fst (delete_on t k st)) (snd (delete_on t k st))
  /\ index_valid (snd (delete_on t k st))
  /\ (count t <= 1 -> delete_on t k st = (t, st))
  /\ (2 <= count t -> is_Some (rows t !! k) ->
        rows (fst (delete_on t k st)) = delete k (rows t)
        /\ editMode (snd (delete_on t k st)) = false
        /\ editingQuestion (snd (delete_on t k st)) = None).
Proof.
  intros Hsync Hindex. pose proof (in_sync_len t st Hsync) as Hlen.
  unfold delete_on, delete_request, handleDeleteQuestion. rewrite Hlen.
  destruct (Z.leb_spec (count t) 1) as [Hc | Hc].
  { cbn [fst snd]. split; [exact Hsync |]. split; [exact Hindex |].
    split; [reflexivity |]. intros; lia. }
  cbn [serve]. unfold deleteQuestion, delete_question.
  destruct (Z.leb_spec (count t) 1) as [| _]; [lia |].
  unfold in_sync, index_valid in *.
  destruct (rows t !! k) as [r |] eqn:Hk.
  - cbn.
    assert (len (select_questions
              {| rows := delete k (rows t); questions_id_seq := questions_id_seq t |})
            = count t - 1) as Hlen'.
    { unfold len. rewrite ServerProps.length_select_questions. unfold count in *. cbn [rows].
      rewrite map_size_delete_Some by eauto. lia. }
    split; [destruct (_ <=? _); reflexivity |]. split.
    + destruct (Z.leb_spec (count t - 1) (currentQuestion st)); cbn; rewrite Hlen'; lia.
    + split; [lia |]. intros _ _.
      destruct (count t - 1 <=? currentQuestion st); repeat split.
  - destruct (in_int4 k); cbn; (split; [exact Hsync |]); (split; [exact Hindex |]);
      (split; [lia |]); intros _ [r Hr]; discriminate Hr.
Qed.

Lemma delete_keeps_list_and_index_witness :
  in_sync Scenario.seeded (handleEditQuestion Cases.first_seeded Cases.at_third)
  /\ index_valid (handleEditQuestion Cases.first_seeded Cases.at_third)
  /\ index_valid
       (snd (delete_on Scenario.seeded 1 (handleEditQuestion Cases.first_seeded Cases.at_third))).
Proof.
  assert (in_sync Scenario.seeded (handleEditQuestion Cases.first_seeded Cases.at_third))
    as Hsync by reflexivity.
  assert (index_valid (handleEditQuestion Cases.first_seeded Cases.at_third)) as Hindex
    by (unfold index_valid; vm_compute; split; [discriminate | reflexivity]).
  split; [exact Hsync |]. split; [exact Hindex |].
  apply (delete_keeps_list_and_index Scenario.seeded 1 _ Hsync Hindex).
Defined.

(** "+ Add New Question" followed by Save, on a server whose sequence is
    ahead of its keys: Save issues Create, the server stores the default
    draft under the key of its own sequence (the draft's id is not sent), the
    form closes and the client holds the new list; and the form does not
    offer Delete for the new draft. *)
Theorem added_question_is_created (t : Table) (st : State) :
  sequence_ahead t ->
  let draft := mkRow "New Question" ["Option 1"; "Option 2"; "Option 3"; "Option 4"] 0
                 "Explanation for the new question" in
  let t' := fst (save_on t (handleAddQuestion st)) in
  let st' := snd (save_on t (handleAddQuestion st)) in
  rows t' = <[questions_id_seq t := draft]> (rows t)
  /\ count t' = count t + 1
  /\ quizQuestions st' = select_questions t'
  /\ editMode st' = false
  /\ editingQuestion st' = None
  /\ (forall d, editingQuestion (handleAddQuestion st) = Some d ->
        delete_offered d (quizQuestions st) = false).
Proof.
  intros Hseq draft t' st'. subst t' st'.
  assert (exceeds_max
            {| id := next_draft_id (quizQuestions st); question := "New Question";
               options := ["Option 1"; "Option 2"; "Option 3"; "Option 4"];
               correctAnswer := 0; explanation := "Explanation for the new question" |}
            (quizQuestions st) = true) as Hmax.
  { unfold exceeds_max, next_draft_id. cbn [id].
    destruct (Math_max (quizQuestions st)); [apply Z.ltb_lt; lia | reflexivity]. }
  unfold save_on, save_request, handleAddQuestion.
  cbn [editingQuestion setEditMode setEditingQuestion quizQuestions].
  rewrite Hmax. cbn [serve].
  rewrite (ServerMore.createQuestion_valid _ draft t Hseq).
  2: { unfold valid_payload, save_body; cbn. repeat split; try discriminate; try lia.
       exists (inject_Z 0). split; reflexivity. }
  2: reflexivity.
  cbn. split; [reflexivity |]. split.
  - unfold count. cbn [rows].
    rewrite map_size_insert_None by apply ServerProps.sequence_ahead_fresh, Hseq. lia.
  - repeat split. intros d [= <-]. unfold delete_offered, next_draft_id. cbn [id].
    destruct (Math_max (quizQuestions st)); [apply Z.leb_gt; lia | reflexivity].
Qed.

Lemma added_question_is_created_witness :
  sequence_ahead Scenario.last_row
  /\ select_questions (fst (save_on Scenario.last_row (handleAddQuestion Cases.playing_seeded)))
     = quizQuestions (snd (save_on Scenario.last_row (handleAddQuestion Cases.playing_seeded))).
Proof.
  assert (sequence_ahead Scenario.last_row) as H.
  { unfold Scenario.last_row.
    apply (ServerProps.sequence_ahead_serve (DELETE_question (IdInteger 3))).
    apply (ServerProps.sequence_ahead_serve (DELETE_question (IdInteger 2))).
    apply ServerProps.sequence_ahead_initializeDatabase, ServerProps.sequence_ahead_created. }
  split; [exact H |].
  destruct (added_question_is_created Scenario.last_row Cases.playing_seeded H)
    as (_ & _ & Hlist & _).
  symmetry. exact Hlist.
Defined.

(** A failed first load shows the error screen with its retry button, and a
    retry that succeeds leads to the same ready state as a first load that
    succeeded: the failure leaves no trace. *)
Theorem retry_recovers_from_failed_load (failure : Reply (list Question)) (qs : list Question) :
  (forall l, failure <> Answered true l) ->
  (forall message, failure = Failed message -> message <> "") ->
  render (fetchQuestions failure initialState) = ErrorScreen
  /\ quizQuestions (fetchQuestions failure initialState) = []
  /\ fetchQuestions (Answered true qs) (fetchQuestions failure initialState) = ready qs.
Proof.
  intros Hfail Hmessage. destruct failure as [message | [|] l].
  - specialize (Hmessage message eq_refl). unfold fetchQuestions, render. cbn.
    destruct (String.eqb_spec message ""); [contradiction |]. repeat split.
  - exfalso. apply (Hfail l). reflexivity.
  - repeat split.
Qed.

Lemma retry_recovers_from_failed_load_witness :
  render (fetchQuestions (Failed "Failed to fetch") initialState) = ErrorScreen.
Proof.
  apply (retry_recovers_from_failed_load (Failed "Failed to fetch") []).
  - intros l. discriminate.
  - intros message [= <-]. discriminate.
Defined.

End ClientMore.
